(** * Voice agent: call-turn orchestration, conversation engine, slot search

    A shallow embedding of the Python sources

    - [app/services/calendar_service.py]  ([CalendarService.get_available_slots]),
    - [app/services/llm_agent.py]         ([LLMAgent.chat]),
    - [app/services/call_orchestrator.py] ([CallOrchestrator]),
    - [app/routes/voice.py]               ([websocket_media_stream]),

    followed by the properties proved about them.

    Conventions.  A Python call that may raise is a value of [Exc]; code that
    threads the collaborators (speech, reasoning backend, tools, transport)
    runs in a state-and-exception monad over a record that holds the
    collaborators' own state together with a log of every call made to them.
    The collaborators themselves are third-party services and enter as an
    interface ([Collaborators]).  Diagnostic logging ([logger], the
    interaction logger) carries no data flow and is left out. *)

From Stdlib Require Import ZArith List String Ascii Bool Lia Sorted.
From stdpp Require Import gmap strings list pretty.
From Equations Require Import Equations.

Local Open Scope Z_scope.

(** ** Outcomes of fallible calls *)

(** The result of a Python call: the exception it raised (as [str(e)]) or the
    value it returned. *)
Inductive Exc (A : Type) : Type :=
| Raised (e : string)
| Returned (a : A).
Arguments Raised {A} e.
Arguments Returned {A} a.

(** ** Calendar slot search ([calendar_service.py]) *)

Module CalendarService.

(** Instants are wall-clock seconds counted from midnight of the requested
    date in the salon's time zone: every datetime the sweep compares carries
    the same [tzinfo], so Python compares and adds them as naive values. *)
Definition instant := Z.

(** [timedelta(minutes=m)] *)
Definition minutes (m : Z) : Z := 60 * m.

(** [datetime.fromisoformat(f"{date}T09:00:00")], [...T19:00:00] *)
Definition day_start : instant := 9 * 3600.
Definition day_end : instant := 19 * 3600.

(** One entry of the returned list: the dict with keys [start_time],
    [end_time] and [date]. *)
Record slot : Type := {
  start_time : string;
  end_time : string;
  date : string
}.

(** [strftime("%H:%M")] *)
Definition digit (d : Z) : ascii := ascii_of_N (48 + Z.to_N d).

Definition two_digits (n : Z) : string :=
  String (digit (n / 10)) (String (digit (n mod 10)) EmptyString).

Definition strftime_HM (t : instant) : string :=
  (two_digits ((t / 3600) mod 24) ++ ":" ++ two_digits ((t / 60) mod 60))%string.

(** The inner [for busy_start, busy_end in busy_periods] loop: the end of the
    first busy period, in list order, that the candidate slot
    [current, slot_end) conflicts with ([current < busy_end and
    slot_end > busy_start]), if there is one. *)
Fixpoint first_conflict (current slot_end : instant)
  (busy_periods : list (instant * instant)) : option instant :=
  match busy_periods with
  | [] => None
  | (busy_start, busy_end) :: rest =>
      if bool_decide (current < busy_end) && bool_decide (slot_end > busy_start)
      then Some busy_end
      else first_conflict current slot_end rest
  end.

Lemma first_conflict_later current slot_end busy_periods busy_end :
  first_conflict current slot_end busy_periods = Some busy_end ->
  current < busy_end.
Proof.
  induction busy_periods as [|[bs be] rest IH]; simpl; [done|].
  destruct (bool_decide (current < be)) eqn:E1; simpl; [|done].
  destruct (bool_decide (slot_end > bs)); [|done].
  intros [= <-]. by apply bool_decide_eq_true in E1.
Qed.

Definition inspect {A} (a : A) : {b | a = b} := exist _ a eq_refl.

(** One iteration of the [while] loop, as recorded by [sweep]: the candidate
    start that was examined and the slot appended for it, if it was free. *)
Definition iteration : Type := instant * option slot.

(** The [while current + duration <= day_end] loop.  A conflicting candidate
    jumps to the end of the busy period found; a free one is appended and the
    candidate advances by 30 minutes.  [duration] is
    [timedelta(minutes=duration_minutes)]. *)
Equations? sweep (date : string) (duration : Z) (busy_periods : list (instant * instant))
  (current : instant) : list iteration
  by wf (Z.to_nat (day_end - duration - current + 1)) lt :=
  sweep date duration busy_periods current
    with Z_le_gt_dec (current + duration) day_end => {
    | right _ := [];
    | left _ with inspect (first_conflict current (current + duration) busy_periods) => {
        | exist _ (Some busy_end) _ :=
            (current, None) :: sweep date duration busy_periods busy_end;
        | exist _ None _ :=
            (current, Some {| start_time := strftime_HM current;
                              end_time := strftime_HM (current + duration);
                              date := date |})
            :: sweep date duration busy_periods (current + minutes 30) } }.
Proof.
  - apply first_conflict_later in e. lia.
  - unfold minutes. lia.
Qed.

(** [available_slots] after the loop. *)
Definition find_slots (date : string) (duration_minutes : Z)
  (busy_periods : list (instant * instant)) : list slot :=
  omap snd (sweep date (minutes duration_minutes) busy_periods day_start).

(** The candidates the loop examined, in order. *)
Definition candidates (date : string) (duration_minutes : Z)
  (busy_periods : list (instant * instant)) (current : instant) : list instant :=
  map fst (sweep date (minutes duration_minutes) busy_periods current).

(** A calendar event as the sweep sees it: its title and description (absent
    keys read as the empty string) and its start and end, already parsed and
    brought to the salon's time zone ([fromisoformat(...).astimezone]). *)
Record event : Type := {
  summary : string;
  description : string;
  ev_start : instant;
  ev_end : instant
}.

Section GetAvailableSlots.

(** [needle.lower() in haystack.lower()] *)
Variable lower_in : string -> string -> bool.

Definition mentions (stylist : string) (e : event) : bool :=
  lower_in stylist (description e) || lower_in stylist (summary e).

(** [get_available_slots].  [events_result] is what the calendar backend
    answered for the window: [Raised] when the request failed, otherwise the
    [items] of the day. *)
Definition get_available_slots (date : string) (duration_minutes : Z)
  (stylist : option string) (events_result : Exc (list event)) : list slot :=
  match events_result with
  | Raised _ => []
  | Returned events =>
      let events :=
        match stylist with
        | Some s => if bool_decide (s = EmptyString) then events
                    else filter (fun e => Is_true (mentions s e)) events
        | None => events
        end in
      let busy_periods := map (fun e => (ev_start e, ev_end e)) events in
      find_slots date duration_minutes busy_periods
  end.

End GetAvailableSlots.

(** *** Appointment lookup ([find_appointment], lines 239-305) *)

(** [event["start"]] and [event["end"]]: a dict with a [dateTime] or, for an
    all-day event, a [date].  An absent key is [None]. *)
Record time_field : Type := {
  dateTime : option string;
  date_only : option string
}.

(** An entry of [items] as the lookup reads it: each key may be absent. *)
Record item : Type := {
  item_id : option string;
  item_summary : option string;
  item_description : option string;
  item_start : option time_field;
  item_end : option time_field
}.

(** A match as the lookup returns it. *)
Record appointment : Type := {
  event_id : string;
  appt_summary : string;
  appt_description : string;
  appt_start : option string;
  appt_end : option string
}.

(** [x or y] on optional strings: the first that is neither [None] nor
    empty, else the second. *)
Definition or_else (x : option string) (y : option string) : option string :=
  match x with
  | Some (String _ _) => x
  | _ => y
  end.

(** [d.get(key, "")] *)
Definition get_or_empty (x : option string) : string :=
  match x with Some s => s | None => EmptyString end.

(** [needle in haystack] on strings. *)
Fixpoint substring_in (needle haystack : string) : bool :=
  String.prefix needle haystack
  || match haystack with
     | EmptyString => false
     | String _ rest => substring_in needle rest
     end.

(** [field.get("dateTime", field.get("date"))] *)
Definition time_of (field : time_field) : option string :=
  match dateTime field with
  | Some t => Some t
  | None => date_only field
  end.

Section FindAppointment.

(** [str.lower] *)
Variable lower : string -> string.

(** [(customer_name or customer_phone or "").lower()] *)
Definition search_term_of (customer_name customer_phone : option string) : string :=
  lower (get_or_empty (or_else (or_else customer_name customer_phone)
                               (Some EmptyString))).

(** The test of the loop body: a non-empty search term found in the
    description or in the summary, both lowered. *)
Definition matches (search_term : string) (ev : item) : bool :=
  match search_term with
  | EmptyString => false
  | String _ _ =>
      substring_in search_term (lower (get_or_empty (item_description ev)))
      || substring_in search_term (lower (get_or_empty (item_summary ev)))
  end.

(** The dict built for a matching event.  [event["start"]], [event["end"]]
    and [event["id"]], read in this order, raise [KeyError] when absent. *)
Definition match_of (ev : item) : Exc appointment :=
  match item_start ev with
  | None => Raised "'start'"
  | Some start_field =>
      match item_end ev with
      | None => Raised "'end'"
      | Some end_field =>
          match item_id ev with
          | None => Raised "'id'"
          | Some id =>
              Returned {| event_id := id;
                          appt_summary := get_or_empty (item_summary ev);
                          appt_description := get_or_empty (item_description ev);
                          appt_start := time_of start_field;
                          appt_end := time_of end_field |}
          end
      end
  end.

(** The [for event in events] loop. *)
Fixpoint collect_matches (search_term : string) (events : list item)
  (found : list appointment) : Exc (list appointment) :=
  match events with
  | [] => Returned found
  | ev :: rest =>
      if matches search_term ev then
        match match_of ev with
        | Raised e => Raised e
        | Returned m => collect_matches search_term rest (found ++ [m])
        end
      else collect_matches search_term rest found
  end.

(** [find_appointment], from the request on.  [events_result] is what the
    calendar backend answered for the 90 days from [date_from]: [Raised] when
    the request failed, otherwise its [items].  The set-up of the client
    before the [try] is not part of this definition. *)
Definition find_appointment (customer_name customer_phone : option string)
  (events_result : Exc (list item)) : Exc (list appointment) :=
  match events_result with
  | Raised _ => Returned []
  | Returned events =>
      collect_matches (search_term_of customer_name customer_phone) events []
  end.

End FindAppointment.

End CalendarService.

(** ** Conversation records and collaborators *)

(** A tool invocation requested by the reasoning backend
    ([tool_call.id], [tool_call.function.name], [tool_call.function.arguments]). *)
Record tool_call : Type := {
  tc_id : string;
  fn_name : string;
  fn_arguments : string
}.

(** [response.choices[0].message]: its [content] ([None] or a string) and its
    [tool_calls] (the empty list also stands for [None]; both are falsy). *)
Record completion : Type := {
  content : option string;
  tool_calls : list tool_call
}.

(** The message dicts the code builds and keeps in a history. *)
Inductive message : Type :=
| RoleContent (role : string) (text : string)
    (* {"role": role, "content": text} *)
| AssistantToolCalls (dump : completion)
    (* choice.message.model_dump() of a reply that requests tools *)
| ToolResult (tool_call_id : string) (text : string).
    (* {"role": "tool", "tool_call_id": ..., "content": ...} *)

Definition user_message_of (text : string) : message := RoleContent "user" text.
Definition assistant_message_of (text : string) : message := RoleContent "assistant" text.

(** Tool-internal records: the assistant's tool-invocation record and the
    tool-result records. *)
Definition is_tool_record (m : message) : bool :=
  match m with
  | RoleContent _ _ => false
  | AssistantToolCalls _ => true
  | ToolResult _ _ => true
  end.

(** One call made to a collaborator, with what it answered. *)
Inductive call_event : Type :=
| LlmCall (messages : list message) (outcome : Exc completion)
| ToolCall (name : string) (arguments : string) (result : string)
| SttCall (audio : list Byte.byte) (outcome : Exc string)
| TtsCall (text : string) (outcome : Exc string)
| SendAudio (stream_sid : string) (audio_b64 : string) (outcome : Exc unit).

(** The outcomes of the reasoning-backend invocations in a log, in order. *)
Definition llm_outcomes (log : list call_event) : list (Exc completion) :=
  omap (fun c => match c with LlmCall _ r => Some r | _ => None end) log.

(** The names of the tools dispatched in a log, in order. *)
Definition tool_names (log : list call_event) : list string :=
  omap (fun c => match c with ToolCall n _ _ => Some n | _ => None end) log.

(** The external collaborators, over their own state [Ext].
    - [completions_create]: [client.chat.completions.create(...)];
    - [dispatch_tool name arguments]: [json.loads] of the arguments (an empty
      mapping when they do not parse) followed by [_execute_tool], which
      catches every exception itself and always returns a string;
    - [speech_to_text], [text_to_speech_base64]: the voice service;
    - [send_audio]: [_send_audio] on the open WebSocket;
    - [system_prompt]: the content built by [_build_system_message];
    - [get_greeting]: [llm_agent.get_greeting()];
    - [utcnow]: [datetime.now(timezone.utc)]. *)
Class Collaborators (Ext : Type) : Type := {
  completions_create : list message -> Ext -> Exc completion * Ext;
  dispatch_tool : string -> string -> Ext -> string * Ext;
  speech_to_text : list Byte.byte -> Ext -> Exc string * Ext;
  text_to_speech_base64 : string -> Ext -> Exc string * Ext;
  send_audio : string -> string -> Ext -> Exc unit * Ext;
  system_prompt : Ext -> string;
  get_greeting : Ext -> string;
  utcnow : Ext -> Z
}.

(** The collaborators' state and the log of the calls made so far. *)
Record Env (Ext : Type) : Type := {
  ext : Ext;
  calls : list call_event
}.
Arguments ext {Ext} _.
Arguments calls {Ext} _.

Definition logged {Ext} (env : Env Ext) (e' : Ext) (c : call_event) : Env Ext :=
  {| ext := e'; calls := calls env ++ [c] |}.

(** ** Conversation engine ([llm_agent.py]) *)

Module LLMAgent.

Definition MAX_HISTORY : nat := 40.
Definition max_tool_rounds : nat := 5.

Definition api_error_phrase : string :=
  ("I'm sorry, I'm having a bit of trouble right now. "
   ++ "Could you repeat that?")%string.

Definition stall_phrase : string :=
  ("I apologize for the delay. Let me help you with that. "
   ++ "Could you tell me what you'd like to do?")%string.

(** Lines 176-180: [conversation_history[:4] + conversation_history[-36:]]
    when the history is longer than [MAX_HISTORY].  A negative slice start
    counts from the end and is clamped at the beginning of the list. *)
Definition trim_history (conversation_history : list message) : list message :=
  if bool_decide (MAX_HISTORY < length conversation_history)%nat
  then take 4 conversation_history
       ++ drop (length conversation_history - 36) conversation_history
  else conversation_history.

(** [choice.message.content or ""] *)
Definition content_or_empty (choice : completion) : string :=
  match content choice with
  | Some s => s
  | None => EmptyString
  end.

(** What [chat] returns: [(agent_response, history, tools_called)]. *)
Definition chat_result : Type := string * list message * list string.

Section Chat.

Context {Ext : Type} `{Collaborators Ext}.

Definition build_system_message (env : Env Ext) : message :=
  RoleContent "system" (system_prompt (ext env)).

Definition create_completion (messages : list message) (env : Env Ext)
  : Exc completion * Env Ext :=
  let '(r, e') := completions_create messages (ext env) in
  (r, logged env e' (LlmCall messages r)).

Definition execute_tool (name arguments : string) (env : Env Ext)
  : string * Env Ext :=
  let '(r, e') := dispatch_tool name arguments (ext env) in
  (r, logged env e' (ToolCall name arguments r)).

(** The [for tool_call in choice.message.tool_calls] loop: every invocation
    appends its name to [tools_called] and its result record to [messages]. *)
Fixpoint run_tool_calls (tcs : list tool_call) (messages : list message)
  (tools_called : list string) (env : Env Ext)
  : list message * list string * Env Ext :=
  match tcs with
  | [] => (messages, tools_called, env)
  | tc :: rest =>
      let '(tool_result, env1) := execute_tool (fn_name tc) (fn_arguments tc) env in
      run_tool_calls rest
        (messages ++ [ToolResult (tc_id tc) tool_result])
        (tools_called ++ [fn_name tc])
        env1
  end.

(** The [for round_num in range(max_tool_rounds)] loop with [rounds]
    iterations left, and the code after it. *)
Fixpoint chat_rounds (rounds : nat) (conversation_history : list message)
  (user_message : string) (messages : list message) (tools_called : list string)
  (env : Env Ext) : chat_result * Env Ext :=
  match rounds with
  | O => ((stall_phrase, conversation_history, tools_called), env)
  | S rounds' =>
      match create_completion messages env with
      | (Raised _, env1) =>
          ((api_error_phrase, conversation_history, tools_called), env1)
      | (Returned choice, env1) =>
          match tool_calls choice with
          | _ :: _ =>
              let '(messages', tools_called', env2) :=
                run_tool_calls (tool_calls choice)
                  (messages ++ [AssistantToolCalls choice]) tools_called env1 in
              chat_rounds rounds' conversation_history user_message
                messages' tools_called' env2
          | [] =>
              let agent_response := content_or_empty choice in
              let updated_history :=
                conversation_history
                ++ [user_message_of user_message]
                ++ [assistant_message_of agent_response] in
              ((agent_response, updated_history, tools_called), env1)
          end
      end
  end.

(** [LLMAgent.chat] *)
Definition chat (conversation_history : list message) (user_message : string)
  (call_sid : string) (env : Env Ext) : chat_result * Env Ext :=
  let conversation_history := trim_history conversation_history in
  let messages :=
    [build_system_message env] ++ conversation_history
    ++ [user_message_of user_message] in
  chat_rounds max_tool_rounds conversation_history user_message messages [] env.

(** The calls one [chat] makes: what it appends to the log. *)
Definition turn_calls (conversation_history : list message) (user_message : string)
  (call_sid : string) (env : Env Ext) : list call_event :=
  drop (length (calls env))
       (calls (chat conversation_history user_message call_sid env).2).

End Chat.

(** A backend answer that asks for tool invocations. *)
Definition requests_tools (r : Exc completion) : bool :=
  match r with
  | Returned choice => match tool_calls choice with [] => false | _ :: _ => true end
  | Raised _ => false
  end.

(** The tool names a sequence of backend answers asks for, in order. *)
Definition requested_names (outcomes : list (Exc completion)) : list string :=
  concat (map (fun r => match r with
                        | Returned choice => map fn_name (tool_calls choice)
                        | Raised _ => []
                        end) outcomes).

Definition is_tool_call (c : call_event) : bool :=
  match c with ToolCall _ _ _ => true | _ => false end.

(** The shape of the log of one run of the round loop with [rounds]
    iterations left, together with the response and the history the run
    returns: the budget is used up; or the backend raised; or it answered in
    plain text; or it asked for tools, they were dispatched, and the loop went
    on. *)
Inductive turn_log (hist : list message) (text : string)
  : nat -> list call_event -> string -> list message -> Prop :=
| turn_exhausted :
    turn_log hist text 0 [] stall_phrase hist
| turn_error rounds msgs e :
    turn_log hist text (S rounds) [LlmCall msgs (Raised e)] api_error_phrase hist
| turn_final rounds msgs choice :
    tool_calls choice = [] ->
    turn_log hist text (S rounds) [LlmCall msgs (Returned choice)]
      (content_or_empty choice)
      (hist ++ [user_message_of text; assistant_message_of (content_or_empty choice)])
| turn_tools rounds msgs choice tool_log rest resp h :
    tool_calls choice <> [] ->
    forallb is_tool_call tool_log = true ->
    tool_names tool_log = map fn_name (tool_calls choice) ->
    turn_log hist text rounds rest resp h ->
    turn_log hist text (S rounds)
      (LlmCall msgs (Returned choice) :: tool_log ++ rest) resp h.

End LLMAgent.

(** ** State-and-exception monad

    [M S A]: a computation over a state [S] that returns an [A] or raises. *)

Definition M (S A : Type) : Type := S -> Exc A * S.

Definition ret {S A} (a : A) : M S A := fun s => (Returned a, s).

Definition bind {S A B} (m : M S A) (k : A -> M S B) : M S B :=
  fun s =>
    match m s with
    | (Raised e, s') => (Raised e, s')
    | (Returned a, s') => k a s'
    end.

(** [try: m except Exception as e: ...], with the outcome handed to the code
    that follows. *)
Definition attempt {S A} (m : M S A) : M S (Exc A) :=
  fun s => let '(r, s') := m s in (Returned r, s').

Definition gets {S A} (f : S -> A) : M S A := fun s => (Returned (f s), s).

Definition modify {S} (f : S -> S) : M S unit := fun s => (Returned tt, f s).

Declare Scope monad_scope.
Delimit Scope monad_scope with monad.
Notation "'let!' x ':=' m 'in' k" := (bind m (fun x => k))
  (at level 10, x name, m at level 200, k at level 200, only parsing) : monad_scope.
Local Open Scope monad_scope.

(** [not s or s.strip() == ""], on ASCII text: the characters [str.strip]
    removes are the white-space characters. *)
Definition is_space (a : ascii) : bool :=
  let n := N_of_ascii a in
  ((9 <=? n) && (n <=? 13) || (28 <=? n) && (n <=? 32))%N.

Fixpoint is_blank (s : string) : bool :=
  match s with
  | EmptyString => true
  | String a rest => is_space a && is_blank rest
  end.

(** Truthiness of a string: non-empty. *)
Definition nonempty (s : string) : bool :=
  match s with EmptyString => false | String _ _ => true end.

(** ** Per-call conversation flow ([call_orchestrator.py]) *)

Module CallOrchestrator.

(** [CallSession] ([models/schemas.py]). *)
Record CallSession : Type := {
  call_sid : string;
  customer_phone : option string;
  customer_name : option string;
  conversation_history : list message;
  extracted_info : gmap string string;
  intent : option string;
  started_at : Z;
  is_active : bool
}.

(** [CallSession(call_sid=..., customer_phone=..., started_at=...)]: the other
    fields take their defaults. *)
Definition new_session (sid : string) (phone : option string) (now : Z) : CallSession :=
  {| call_sid := sid; customer_phone := phone; customer_name := None;
     conversation_history := []; extracted_info := ∅; intent := None;
     started_at := now; is_active := true |}.

(** [session.conversation_history = h] *)
Definition with_history (h : list message) (s : CallSession) : CallSession :=
  {| call_sid := call_sid s; customer_phone := customer_phone s;
     customer_name := customer_name s; conversation_history := h;
     extracted_info := extracted_info s; intent := intent s;
     started_at := started_at s; is_active := is_active s |}.

(** The orchestrator singleton: [_active_sessions] and, beside it, the
    collaborators it calls. *)
Record State (Ext : Type) : Type := {
  active_sessions : gmap string CallSession;
  env : Env Ext
}.
Arguments active_sessions {Ext} _.
Arguments env {Ext} _.

Definition stt_error_response : string :=
  "I'm sorry, I didn't catch that. Could you say that again?".

Definition llm_error_response : string :=
  ("I apologize, I'm experiencing a brief issue. "
   ++ "Could you repeat what you said?")%string.

Section Orchestrator.

Context {Ext : Type} `{Collaborators Ext}.

Definition with_env (st : State Ext) (env' : Env Ext) : State Ext :=
  {| active_sessions := active_sessions st; env := env' |}.

Definition with_sessions (st : State Ext) (m : gmap string CallSession) : State Ext :=
  {| active_sessions := m; env := env st |}.

(** A call to a collaborator, entered in the log. *)
Definition call_out {A} (op : Ext -> Exc A * Ext) (entry : Exc A -> call_event)
  : M (State Ext) A :=
  fun st =>
    let '(r, e') := op (ext (env st)) in
    (r, with_env st (logged (env st) e' (entry r))).

Definition stt (audio : list Byte.byte) : M (State Ext) string :=
  call_out (speech_to_text audio) (SttCall audio).

Definition tts (text : string) : M (State Ext) string :=
  call_out (text_to_speech_base64 text) (TtsCall text).

(** [llm_agent.chat(...)] *)
Definition converse (history : list message) (user_message sid : string)
  : M (State Ext) LLMAgent.chat_result :=
  fun st =>
    let '(r, env') := LLMAgent.chat history user_message sid (env st) in
    (Returned r, with_env st env').

(** [self._active_sessions.get(call_sid)] *)
Definition get_session (sid : string) : M (State Ext) (option CallSession) :=
  gets (fun st => active_sessions st !! sid).

(** [self._active_sessions[call_sid] = session] *)
Definition store_session (sid : string) (s : CallSession) : M (State Ext) unit :=
  modify (fun st => with_sessions st (<[sid := s]> (active_sessions st))).

(** An assignment to [session.conversation_history]: the session object is
    the one the store holds under [sid]. *)
Definition set_history (sid : string) (h : list message) : M (State Ext) unit :=
  modify (fun st => with_sessions st (alter (with_history h) sid (active_sessions st))).

(** [session.conversation_history.append(m)], on the same object. *)
Definition append_history (sid : string) (m : message) : M (State Ext) unit :=
  modify (fun st =>
    with_sessions st
      (alter (fun s => with_history (conversation_history s ++ [m]) s) sid
             (active_sessions st))).

(** [start_call] *)
Definition start_call (sid : string) (phone : option string) : M (State Ext) string :=
  let! now := gets (fun st => utcnow (ext (env st))) in
  let! _ := store_session sid (new_session sid phone now) in
  let! greeting_text := gets (fun st => get_greeting (ext (env st))) in
  let! speech := attempt (tts greeting_text) in
  let greeting_audio_b64 :=
    match speech with Returned a => a | Raised _ => EmptyString end in
  let! _ := append_history sid (assistant_message_of greeting_text) in
  ret greeting_audio_b64.

(** [process_customer_audio] *)
Definition process_customer_audio (sid : string) (audio_bytes : list Byte.byte)
  : M (State Ext) (string * string) :=
  let! session := get_session sid in
  match session with
  | None => ret (EmptyString, EmptyString)
  | Some session =>
      (* Step 1: speech to text *)
      let! transcript := attempt (stt audio_bytes) in
      match transcript with
      | Raised _ =>
          let! error_audio := tts stt_error_response in
          ret (stt_error_response, error_audio)
      | Returned customer_text =>
          if is_blank customer_text then ret (EmptyString, EmptyString)
          else
            (* Step 2: conversation engine *)
            let! turn := attempt (
              let! r := converse (conversation_history session) customer_text sid in
              let '(agent_response, updated_history, tools_called) := r in
              let! _ := set_history sid updated_history in
              ret agent_response) in
            match turn with
            | Raised _ =>
                let! error_audio := tts llm_error_response in
                ret (llm_error_response, error_audio)
            | Returned agent_response =>
                (* Step 3: text to speech *)
                let! speech := attempt (tts agent_response) in
                let response_audio_b64 :=
                  match speech with Returned a => a | Raised _ => EmptyString end in
                ret (agent_response, response_audio_b64)
            end
      end
  end.

(** [process_customer_text] *)
Definition process_customer_text (sid : string) (text : string)
  : M (State Ext) (string * string) :=
  let! found := get_session sid in
  let! session := match found with
             | Some session => ret session
             | None =>
                 let! now := gets (fun st => utcnow (ext (env st))) in
                 let session := new_session sid None now in
                 let! _ := store_session sid session in
                 ret session
             end in
  let! r := converse (conversation_history session) text sid in
  let '(agent_response, updated_history, tools_called) := r in
  let! _ := set_history sid updated_history in
  let! speech := attempt (tts agent_response) in
  let response_audio_b64 :=
    match speech with Returned a => a | Raised _ => EmptyString end in
  ret (agent_response, response_audio_b64).

(** [end_call]: the session leaves the store. *)
Definition end_call (sid : string) : M (State Ext) unit :=
  modify (fun st => with_sessions st (delete sid (active_sessions st))).

End Orchestrator.

End CallOrchestrator.


(** ** Media stream handler ([routes/voice.py]) *)

Module Voice.

Definition CHUNK_THRESHOLD : nat := 3200.
Definition SILENCE_THRESHOLD : nat := 30.
Definition SPEECH_RMS_THRESHOLD : Z := 200.

(** The segmentation locals of [websocket_media_stream]. *)
Record segmenter : Type := {
  audio_buffer : list Byte.byte;
  silence_count : nat;
  is_speaking : bool;
  is_processing : bool
}.

(** All the locals of one connection. *)
Record connection : Type := {
  call_sid : option string;
  caller : option string;
  stream_sid : option string;
  greeting_sent : bool;
  seg : segmenter
}.

Definition listening : segmenter :=
  {| audio_buffer := []; silence_count := 0; is_speaking := false;
     is_processing := false |}.

Definition initial : connection :=
  {| call_sid := None; caller := None; stream_sid := None;
     greeting_sent := false; seg := listening |}.

Definition with_seg (c : connection) (s : segmenter) : connection :=
  {| call_sid := call_sid c; caller := caller c; stream_sid := stream_sid c;
     greeting_sent := greeting_sent c; seg := s |}.

Definition with_processing (s : segmenter) (b : bool) : segmenter :=
  {| audio_buffer := audio_buffer s; silence_count := silence_count s;
     is_speaking := is_speaking s; is_processing := b |}.

(** A message of the stream after [json.loads]; a media payload after
    [base64.b64decode], [None] when the key is missing or the string empty. *)
Inductive ws_event : Type :=
| Start (stream : option string) (sid : string) (from : string)
| Media (payload : option (list Byte.byte))
| Stop
| Mark (name : option string)
| Other.

(** [audioop.ulaw2lin(chunk, 2)] on one byte: the G.711 expansion. *)
Definition ulaw2lin_sample (b : Byte.byte) : Z :=
  let u := Z.lxor (Z.of_N (Byte.to_N b)) 255 in
  let t := Z.shiftl (Z.shiftl (Z.land u 15) 3 + 132) (Z.shiftr (Z.land u 112) 4) in
  if Z.testbit u 7 then 132 - t else t - 132.

(** [audioop.rms(audioop.ulaw2lin(chunk, 2), 2)] in integer arithmetic: the
    truncated root of the mean square of the samples. *)
Definition ulaw_rms (chunk : list Byte.byte) : Z :=
  match chunk with
  | [] => 0
  | _ =>
      let squares := map (fun b => ulaw2lin_sample b * ulaw2lin_sample b) chunk in
      Z.sqrt (fold_right Z.add 0 squares / Z.of_nat (length chunk))
  end.

(** The locals while the caller is speaking or pausing. *)
Definition hearing (buffer : list Byte.byte) (silence : nat) : segmenter :=
  {| audio_buffer := buffer; silence_count := silence; is_speaking := true;
     is_processing := false |}.

(** The locals right after an utterance was handed to the pipeline. *)
Definition handed_over : segmenter :=
  {| audio_buffer := []; silence_count := 0; is_speaking := false;
     is_processing := true |}.

Section Segmenter.

(** The energy estimate of a chunk: [audioop.rms] of its decoding, or [0]
    when decoding raised. *)
Variable rms_energy : list Byte.byte -> Z.

(** Lines 115-141: a frame that is listened to.  Returns the new locals
    and the utterance handed to the pipeline, if one is complete. *)
Definition listen (chunk : list Byte.byte) (s : segmenter)
  : segmenter * option (list Byte.byte) :=
  let audio_buffer := audio_buffer s ++ chunk in
  let '(is_speaking, silence_count) :=
    if bool_decide (rms_energy chunk > SPEECH_RMS_THRESHOLD) then (true, 0%nat)
    else if is_speaking s then (true, S (silence_count s))
    else (false, silence_count s) in
  if is_speaking
     && bool_decide (SILENCE_THRESHOLD <= silence_count)%nat
     && bool_decide (CHUNK_THRESHOLD < length audio_buffer)%nat
  then
    ({| audio_buffer := []; silence_count := 0; is_speaking := false;
        is_processing := true |},
     Some audio_buffer)
  else
    ({| audio_buffer := audio_buffer; silence_count := silence_count;
        is_speaking := is_speaking; is_processing := is_processing s |},
     None).

(** Lines 108-141: the [media] branch up to the hand-over to the pipeline. *)
Definition segment (payload : option (list Byte.byte)) (s : segmenter)
  : segmenter * option (list Byte.byte) :=
  if is_processing s then (s, None)
  else
    match payload with
    | None => (s, None)
    | Some chunk => listen chunk s
    end.

(** The segmenter alone over a run of media frames: the final locals and the
    utterances emitted, in order.  Nothing but the segmenter itself touches
    the suppression flag here. *)
Fixpoint segment_all (payloads : list (option (list Byte.byte))) (s : segmenter)
  : segmenter * list (list Byte.byte) :=
  match payloads with
  | [] => (s, [])
  | p :: rest =>
      let '(s1, emitted) := segment p s in
      let '(s2, later) := segment_all rest s1 in
      (s2, match emitted with Some u => u :: later | None => later end)
  end.

Section Handler.

Context {Ext : Type} `{Collaborators Ext}.

Definition send (stream audio_b64 : string)
  : M (CallOrchestrator.State Ext) unit :=
  CallOrchestrator.call_out (send_audio stream audio_b64)
    (SendAudio stream audio_b64).

(** [process_customer_audio(call_sid, audio_data)]: before the [start] event
    [call_sid] is [None], which is no key of the store. *)
Definition run_pipeline (sid : option string) (audio_data : list Byte.byte)
  : M (CallOrchestrator.State Ext) (string * string) :=
  match sid with
  | Some sid => CallOrchestrator.process_customer_audio sid audio_data
  | None => ret (EmptyString, EmptyString)
  end.

(** Lines 150-170: the turn for a complete utterance.  Returns whether
    [is_processing] stays set, which it does only when response audio was
    sent; a raised exception or a turn without audio clears it. *)
Definition run_turn (c : connection) (audio_data : list Byte.byte)
  : M (CallOrchestrator.State Ext) bool :=
  let! outcome := attempt (
    let! r := run_pipeline (call_sid c) audio_data in
    let '(agent_text, response_audio_b64) := r in
    match stream_sid c with
    | Some stream =>
        if nonempty response_audio_b64 && nonempty stream
        then let! _ := send stream response_audio_b64 in ret true
        else ret false
    | None => ret false
    end) in
  match outcome with
  | Returned keep => ret keep
  | Raised _ => ret false
  end.

(** The [media] branch. *)
Definition handle_media (payload : option (list Byte.byte)) (c : connection)
  : M (CallOrchestrator.State Ext) connection :=
  let '(s1, utterance) := segment payload (seg c) in
  match utterance with
  | None => ret (with_seg c s1)
  | Some audio_data =>
      let! keep := run_turn c audio_data in
      ret (with_seg c (with_processing s1 keep))
  end.

(** The [start] branch.  An exception of [_send_audio] is not caught here. *)
Definition handle_start (stream : option string) (sid from : string)
  (c : connection) : M (CallOrchestrator.State Ext) connection :=
  let c1 := {| call_sid := Some sid; caller := Some from; stream_sid := stream;
               greeting_sent := greeting_sent c; seg := seg c |} in
  let! greeting_audio_b64 := CallOrchestrator.start_call sid (Some from) in
  match stream with
  | Some stream_name =>
      if nonempty greeting_audio_b64 && nonempty stream_name
      then
        let! _ := send stream_name greeting_audio_b64 in
        ret {| call_sid := call_sid c1; caller := caller c1;
               stream_sid := stream_sid c1; greeting_sent := true;
               seg := with_processing (seg c1) true |}
      else ret c1
  | None => ret c1
  end.

(** The [mark] branch: the end of playback re-opens listening. *)
Definition handle_mark (name : option string) (c : connection) : connection :=
  if bool_decide (name = Some "response_end"%string)
  then with_seg c listening
  else c.

(** The [stop] branch, before the [break]. *)
Definition handle_stop (c : connection)
  : M (CallOrchestrator.State Ext) connection :=
  match call_sid c with
  | Some sid =>
      if nonempty sid
      then let! _ := CallOrchestrator.end_call sid in ret c
      else ret c
  | None => ret c
  end.

(** One iteration of [async for message in websocket.iter_text()]. *)
Definition handle_event (ev : ws_event) (c : connection)
  : M (CallOrchestrator.State Ext) connection :=
  match ev with
  | Start stream sid from => handle_start stream sid from c
  | Media payload => handle_media payload c
  | Stop => handle_stop c
  | Mark name => ret (handle_mark name c)
  | Other => ret c
  end.

(** The loop over the incoming messages: it ends at [stop], at the end of the
    stream, or with the first exception, which is passed on. *)
Fixpoint serve (events : list ws_event) (c : connection)
  : M (CallOrchestrator.State Ext) connection :=
  match events with
  | [] => ret c
  | Stop :: _ => handle_stop c
  | ev :: rest => let! c1 := handle_event ev c in serve rest c1
  end.

End Handler.

End Segmenter.

(** *** [_send_audio] (lines 199-223) *)

Definition CHUNK_SIZE : nat := Z.to_nat 8000.

(** A message handed to [websocket.send_text], before [json.dumps]. *)
Inductive ws_message : Type :=
| MediaOut (streamSid : string) (payload : string)
| MarkOut (streamSid : string) (name : string).

(** [range(0, stop, step)] for a positive step. *)
Definition range_step (stop step : nat) : list nat :=
  map (fun k => k * step)%nat (seq 0 ((stop + step - 1) / step)).

(** [audio_bytes[i : j]] *)
Definition slice (audio_bytes : list Byte.byte) (i j : nat) : list Byte.byte :=
  take (j - i) (drop i audio_bytes).

(** The chunks the loop cuts. *)
Definition chunks_of (audio_bytes : list Byte.byte) : list (list Byte.byte) :=
  map (fun i => slice audio_bytes i (i + CHUNK_SIZE))
      (range_step (length audio_bytes) CHUNK_SIZE).

Section SendAudio.

(** [base64.b64decode], which raises on text that is no base64, and
    [base64.b64encode(...).decode("utf-8")]. *)
Variable b64decode : string -> Exc (list Byte.byte).
Variable b64encode : list Byte.byte -> string.

(** The messages [_send_audio] sends, in order, when the transport accepts
    them all. *)
Definition _send_audio (stream_sid audio_b64 : string) : Exc (list ws_message) :=
  match b64decode audio_b64 with
  | Raised e => Raised e
  | Returned audio_bytes =>
      Returned (map (fun chunk => MediaOut stream_sid (b64encode chunk))
                    (chunks_of audio_bytes)
                ++ [MarkOut stream_sid "response_end"])
  end.

End SendAudio.

End Voice.


(** ** Scripted collaborators, for concrete runs

    A reasoning backend that plays back a list of answers and then repeats a
    fixed one; a transcription that always gives the same outcome; a
    synthesis that is either up or down. *)

Record scripted : Type := {
  llm_script : list (Exc completion);
  llm_default : Exc completion;
  stt_outcome : Exc string;
  tts_up : bool
}.

Definition next_answer (s : scripted) : Exc completion * scripted :=
  match llm_script s with
  | [] => (llm_default s, s)
  | r :: rest =>
      (r, {| llm_script := rest; llm_default := llm_default s;
             stt_outcome := stt_outcome s; tts_up := tts_up s |})
  end.

#[global] Instance scripted_collaborators : Collaborators scripted := {|
  completions_create := fun _ s => next_answer s;
  dispatch_tool := fun _ _ s => ("{}"%string, s);
  speech_to_text := fun _ s => (stt_outcome s, s);
  text_to_speech_base64 := fun text s =>
    (if tts_up s then Returned ("audio:" ++ text)%string
     else Raised "synthesis unavailable"%string, s);
  send_audio := fun _ _ s => (Returned tt, s);
  system_prompt := fun _ => "You are the salon's assistant."%string;
  get_greeting := fun _ => "Welcome! How can I help you today?"%string;
  utcnow := fun _ => 0
|}.

Definition fresh_env (s : scripted) : Env scripted := {| ext := s; calls := [] |}.

(** A backend answer that asks for one knowledge-base search. *)
Definition search_request : completion :=
  {| content := None;
     tool_calls := [ {| tc_id := "tc_1"; fn_name := "search_knowledge_base";
                        fn_arguments := "{}" |} ] |}.

Definition plain_answer (text : string) : completion :=
  {| content := Some text; tool_calls := [] |}.

(** A backend that asks for a tool whenever it is invoked. *)
Definition always_tools : scripted :=
  {| llm_script := []; llm_default := Returned search_request;
     stt_outcome := Returned "Hello"%string; tts_up := true |}.

(** Transcription is down; synthesis is up, or down as well. *)
Definition stt_down : scripted :=
  {| llm_script := []; llm_default := Returned (plain_answer "Certainly."%string);
     stt_outcome := Raised "transcription unavailable"%string; tts_up := true |}.

Definition voice_down : scripted :=
  {| llm_script := []; llm_default := Returned (plain_answer "Certainly."%string);
     stt_outcome := Raised "transcription unavailable"%string; tts_up := false |}.

(** The session of call CA1 right after its greeting, and an orchestrator
    that holds just this session, or none. *)
Definition greeted_session : CallOrchestrator.CallSession :=
  CallOrchestrator.with_history
    [assistant_message_of "Welcome! How can I help you today?"]
    (CallOrchestrator.new_session "CA1" (Some "+15551234567"%string) 0).

Definition one_call (s : scripted) : CallOrchestrator.State scripted :=
  {| CallOrchestrator.active_sessions := {[ "CA1"%string := greeted_session ]};
     CallOrchestrator.env := fresh_env s |}.

Definition no_call (s : scripted) : CallOrchestrator.State scripted :=
  {| CallOrchestrator.active_sessions := ∅;
     CallOrchestrator.env := fresh_env s |}.

(** A caller who asks one question; the backend searches the knowledge base
    and answers. *)
Definition haircut_question : scripted :=
  {| llm_script := [Returned search_request;
                    Returned (plain_answer "A women's haircut is $85."%string)];
     llm_default := Raised "API timeout"%string;
     stt_outcome := Returned "How much is a haircut?"%string; tts_up := true |}.

(** Frames of 20 ms as the transport sends them: 160 bytes of the loudest
    and of the quietest sample. *)
Definition loud_frame : list Byte.byte := replicate 160 Byte.x00.
Definition quiet_frame : list Byte.byte := replicate 160 Byte.xff.

(** One call: the stream starts, a frame arrives while the greeting plays,
    the playback is acknowledged, then one loud frame and 31 quiet ones. *)
Definition one_utterance : list Voice.ws_event :=
  [Voice.Start (Some "MZ1"%string) "CA1"%string "+15551234567"%string;
   Voice.Media (Some loud_frame);
   Voice.Mark (Some "response_end"%string);
   Voice.Media (Some loud_frame)]
  ++ replicate 31 (Voice.Media (Some quiet_frame)).

(** The audio handed to transcription in a log, in order. *)
Definition transcribed (log : list call_event) : list (list Byte.byte) :=
  omap (fun c => match c with SttCall audio _ => Some audio | _ => None end) log.

(** The history of a call after the greeting and twenty exchanges: 41 entries. *)
Definition long_history : list message :=
  assistant_message_of "Welcome! How can I help you today?"
  :: concat (replicate 20 [user_message_of "And then?";
                           assistant_message_of "Of course."]).

(** A backend that asks for a tool and then fails, and one that asks for a
    tool and then answers in plain text. *)
Definition tools_then_error : scripted :=
  {| llm_script := [Returned search_request; Raised "API timeout"%string];
     llm_default := Raised "API timeout"%string;
     stt_outcome := Returned "Hello"%string; tts_up := true |}.

Definition tools_then_text : scripted :=
  {| llm_script := [Returned search_request;
                    Returned (plain_answer "A women's haircut is $85."%string)];
     llm_default := Raised "API timeout"%string;
     stt_outcome := Returned "Hello"%string; tts_up := true |}.


(** ** Further definitions *)

(** The instants at which the returned slots start: the candidates of the
    iterations that appended a slot. *)
Definition slot_starts (its : list CalendarService.iteration)
  : list CalendarService.instant :=
  omap (fun it => match it.2 with Some _ => Some it.1 | None => None end) its.

(** Calendar events for concrete runs. *)
Definition morning_appointment : CalendarService.event :=
  {| CalendarService.summary := "Haircut - Jane Doe";
     CalendarService.description := "Stylist: Sophia Martinez";
     CalendarService.ev_start := 10 * 3600;
     CalendarService.ev_end := 11 * 3600 |}.

Definition early_event : CalendarService.event :=
  {| CalendarService.summary := "Delivery";
     CalendarService.description := "";
     CalendarService.ev_start := 7 * 3600;
     CalendarService.ev_end := 9 * 3600 |}.

Definition evening_event : CalendarService.event :=
  {| CalendarService.summary := "Staff meeting";
     CalendarService.description := "";
     CalendarService.ev_start := 19 * 3600;
     CalendarService.ev_end := 20 * 3600 |}.

Definition closed_all_day : CalendarService.event :=
  {| CalendarService.summary := "Closed";
     CalendarService.description := "";
     CalendarService.ev_start := 8 * 3600;
     CalendarService.ev_end := 20 * 3600 |}.

(** The value of a call that returned. *)
Definition returned_value {A} (r : Exc A) : option A :=
  match r with Returned a => Some a | Raised _ => None end.

(** The match the lookup builds for an event: none when the event does not
    match or lacks a key. *)
Definition match_if (lower : string -> string) (term : string)
  (ev : CalendarService.item) : option CalendarService.appointment :=
  if CalendarService.matches lower term ev
  then returned_value (CalendarService.match_of ev)
  else None.

(** [str.lower] on ASCII text, for concrete runs. *)
Definition ascii_lower_char (a : ascii) : ascii :=
  let n := N_of_ascii a in
  if ((65 <=? n) && (n <=? 90))%N then ascii_of_N (n + 32) else a.

Fixpoint ascii_lower (s : string) : string :=
  match s with
  | EmptyString => EmptyString
  | String a rest => String (ascii_lower_char a) (ascii_lower rest)
  end.

(** Calendar entries for concrete lookups. *)
Definition jane_entry : CalendarService.item :=
  {| CalendarService.item_id := Some "event456"%string;
     CalendarService.item_summary := Some "Haircut - Jane Doe"%string;
     CalendarService.item_description :=
       Some "Customer: Jane Doe, Phone: +15551234567"%string;
     CalendarService.item_start :=
       Some {| CalendarService.dateTime := Some "2026-03-20T14:00:00Z"%string;
               CalendarService.date_only := None |};
     CalendarService.item_end :=
       Some {| CalendarService.dateTime := Some "2026-03-20T15:00:00Z"%string;
               CalendarService.date_only := None |} |}.

(** An entry without [id] that mentions another customer, and one that
    mentions Jane. *)
Definition other_entry_without_id : CalendarService.item :=
  {| CalendarService.item_id := None;
     CalendarService.item_summary := Some "Blowout - Sarah"%string;
     CalendarService.item_description := None;
     CalendarService.item_start := None;
     CalendarService.item_end := None |}.

Definition jane_entry_without_id : CalendarService.item :=
  {| CalendarService.item_id := None;
     CalendarService.item_summary := Some "Color - JANE DOE"%string;
     CalendarService.item_description := None;
     CalendarService.item_start :=
       Some {| CalendarService.dateTime := None;
               CalendarService.date_only := Some "2026-03-21"%string |};
     CalendarService.item_end :=
       Some {| CalendarService.dateTime := None;
               CalendarService.date_only := Some "2026-03-22"%string |} |}.

(** The tool round of one backend answer, as it shows in the log and in the
    messages: every invocation is dispatched, in order, with its own name and
    arguments, and leaves a tool-result record tagged with its id. *)
Inductive dispatched : list tool_call -> list call_event -> list message -> Prop :=
| dispatched_nil : dispatched [] [] []
| dispatched_cons tc tcs result log results :
    dispatched tcs log results ->
    dispatched (tc :: tcs)
      (ToolCall (fn_name tc) (fn_arguments tc) result :: log)
      (ToolResult (tc_id tc) result :: results).

(** The backend requests of a turn, starting from the messages [msgs]: each
    request carries the messages so far; after a tool round the messages are
    extended by the assistant's tool-invocation record and the tool-result
    records of the round. *)
Inductive requests_from : list message -> list call_event -> Prop :=
| requests_none msgs : requests_from msgs []
| requests_last msgs outcome :
    LLMAgent.requests_tools outcome = false ->
    requests_from msgs [LlmCall msgs outcome]
| requests_round msgs choice tool_log results rest :
    tool_calls choice <> [] ->
    dispatched (tool_calls choice) tool_log results ->
    requests_from (msgs ++ AssistantToolCalls choice :: results) rest ->
    requests_from msgs (LlmCall msgs (Returned choice) :: tool_log ++ rest).

(** ** Tool dispatcher ([llm_agent.py], [_execute_tool], lines 61-154) *)

Module ToolDispatcher.

(** JSON values: the parsed tool arguments and the results handed to
    [json.dumps].  A [JDict] lists the items of a dict, keys distinct. *)
#[local] Unset Elimination Schemes.
Inductive json : Type :=
| JNull
| JBool (b : bool)
| JNum (z : Z)
| JStr (s : string)
| JList (items : list json)
| JDict (items : list (string * json)).
#[local] Set Elimination Schemes.

Fixpoint assoc (key : string) (items : list (string * json)) : option json :=
  match items with
  | [] => None
  | (k, v) :: rest => if bool_decide (k = key) then Some v else assoc key rest
  end.

(** The keyword arguments of [calendar_service.create_appointment]. *)
Record booking : Type := {
  summary : string;
  date : json;
  start_time : json;
  duration_minutes : json;
  customer_name : json;
  customer_phone : json;
  service : json;
  stylist : json;
  notes : json
}.

(** The calls the dispatcher makes to the calendar and the knowledge base. *)
Inductive service_call : Type :=
| SlotsCall (date duration_minutes stylist : json)
| ServiceLookup (name : json)
| CreateCall (request : booking)
| UpdateCall (event_id new_date new_start_time : json)
| DeleteCall (event_id : json)
| FindCall (customer_name customer_phone : json)
| QueryCall (question : json) (top_k : Z).

(** The services behind the tools, over their own state:
    [calendar_service.get_available_slots], [create_appointment],
    [update_appointment], [delete_appointment], [find_appointment], and
    [rag_service.get_service_by_name], [query]. *)
Class ToolServices (Ext : Type) : Type := {
  get_available_slots : json -> json -> json -> Ext -> Exc (list json) * Ext;
  create_appointment : booking -> Ext -> Exc json * Ext;
  update_appointment : json -> json -> json -> Ext -> Exc json * Ext;
  delete_appointment : json -> Ext -> Exc json * Ext;
  find_appointment : json -> json -> Ext -> Exc (list json) * Ext;
  get_service_by_name : json -> Ext -> Exc (option json) * Ext;
  query : json -> Z -> Ext -> Exc (list json) * Ext
}.

(** The services' state and the calls made to them so far. *)
Record Backend (Ext : Type) : Type := {
  services : Ext;
  service_calls : list service_call
}.
Arguments services {Ext} _.
Arguments service_calls {Ext} _.

Section ExecuteTool.

Context {Ext : Type} `{ToolServices Ext}.

(** [json.dumps]; the text of a [TypeError] for subscripting, and of an
    [AttributeError] for [.get], on a value that is no dict; [str] of a value
    that is no string, as an f-string renders it. *)
Variable dumps : json -> string.
Variable not_subscriptable : json -> string.
Variable no_get : json -> string.
Variable str_of : json -> string.

Local Open Scope monad_scope.

(** [arguments[key]]: a missing key raises [KeyError(key)], whose text is
    the quoted key. *)
Definition getitem (d : json) (key : string) : Exc json :=
  match d with
  | JDict items =>
      match assoc key items with
      | Some v => Returned v
      | None => Raised ("'" ++ key ++ "'")%string
      end
  | _ => Raised (not_subscriptable d)
  end.

(** [arguments.get(key, default)] *)
Definition get (d : json) (key : string) (default : json) : Exc json :=
  match d with
  | JDict items =>
      match assoc key items with
      | Some v => Returned v
      | None => Returned default
      end
  | _ => Raised (no_get d)
  end.

(** [f"{v}"] *)
Definition format (v : json) : string :=
  match v with
  | JStr s => s
  | _ => str_of v
  end.

(** Truthiness of an optional dict: neither [None] nor empty. *)
Definition truthy (v : option json) : bool :=
  match v with
  | None | Some JNull | Some (JDict []) | Some (JList [])
  | Some (JStr EmptyString) | Some (JBool false) | Some (JNum 0) => false
  | Some _ => true
  end.

(** [svc["duration_minutes"] if svc else 60] *)
Definition default_duration (svc : option json) : Exc json :=
  match svc with
  | Some d => if truthy svc then getitem d "duration_minutes"
              else Returned (JNum 60)
  | None => Returned (JNum 60)
  end.

Definition pure {A} (r : Exc A) : M (Backend Ext) A := fun st => (r, st).

(** A call to a service, entered in the list of calls. *)
Definition call {A} (op : Ext -> Exc A * Ext) (entry : service_call)
  : M (Backend Ext) A :=
  fun st =>
    let '(r, e') := op (services st) in
    (r, {| services := e'; service_calls := service_calls st ++ [entry] |}).

Definition status (s : string) (rest : list (string * json)) : json :=
  JDict (("status"%string, JStr s) :: rest).

Definition no_slots_message : string :=
  "No available slots found for the requested date and criteria.".

Definition not_found_message : string :=
  "No upcoming appointment found with that information.".

(** The body of the [try]. *)
Definition dispatch (tool_name : string) (arguments : json)
  : M (Backend Ext) string :=
  if bool_decide (tool_name = "check_availability"%string) then
    let! date := pure (getitem arguments "date") in
    let! duration := pure (get arguments "duration_minutes" (JNum 60)) in
    let! stylist := pure (get arguments "stylist" JNull) in
    let! result := call (get_available_slots date duration stylist)
                        (SlotsCall date duration stylist) in
    match result with
    | [] => ret (dumps (status "no_slots"
                          [("message"%string, JStr no_slots_message)]))
    | _ :: _ =>
        (* limit to 5 slots for brevity *)
        ret (dumps (status "available"
                      [("slots"%string, JList (take 5 result));
                       ("total_available"%string,
                        JNum (Z.of_nat (length result)))]))
    end
  else if bool_decide (tool_name = "book_appointment"%string) then
    let! service_arg := pure (getitem arguments "service") in
    let! svc := call (get_service_by_name service_arg) (ServiceLookup service_arg) in
    let! default := pure (default_duration svc) in
    let! duration := pure (get arguments "duration_minutes" default) in
    let! service1 := pure (getitem arguments "service") in
    let! name1 := pure (getitem arguments "customer_name") in
    let summary := (format service1 ++ " – " ++ format name1)%string in
    let! date := pure (getitem arguments "date") in
    let! start_time := pure (getitem arguments "start_time") in
    let! customer_name := pure (getitem arguments "customer_name") in
    let! customer_phone := pure (getitem arguments "customer_phone") in
    let! service := pure (getitem arguments "service") in
    let! stylist := pure (get arguments "stylist" (JStr EmptyString)) in
    let! notes := pure (get arguments "notes" (JStr EmptyString)) in
    let request :=
      {| summary := summary; date := date; start_time := start_time;
         duration_minutes := duration; customer_name := customer_name;
         customer_phone := customer_phone; service := service;
         stylist := stylist; notes := notes |} in
    let! result := call (create_appointment request) (CreateCall request) in
    ret (dumps result)
  else if bool_decide (tool_name = "reschedule_appointment"%string) then
    let! event_id := pure (getitem arguments "event_id") in
    let! new_date := pure (getitem arguments "new_date") in
    let! new_start_time := pure (getitem arguments "new_start_time") in
    let! result := call (update_appointment event_id new_date new_start_time)
                        (UpdateCall event_id new_date new_start_time) in
    ret (dumps result)
  else if bool_decide (tool_name = "cancel_appointment"%string) then
    let! event_id := pure (getitem arguments "event_id") in
    let! result := call (delete_appointment event_id) (DeleteCall event_id) in
    ret (dumps result)
  else if bool_decide (tool_name = "lookup_appointment"%string) then
    let! customer_name := pure (get arguments "customer_name" JNull) in
    let! customer_phone := pure (get arguments "customer_phone" JNull) in
    let! result := call (find_appointment customer_name customer_phone)
                        (FindCall customer_name customer_phone) in
    match result with
    | [] => ret (dumps (status "not_found"
                          [("message"%string, JStr not_found_message)]))
    | _ :: _ => ret (dumps (status "found"
                              [("appointments"%string, JList result)]))
    end
  else if bool_decide (tool_name = "search_knowledge_base"%string) then
    let! question := pure (getitem arguments "query") in
    let! results := call (query question 3) (QueryCall question 3) in
    ret (dumps (status "success" [("results"%string, JList results)]))
  else
    ret (dumps (JDict [("error"%string,
                        JStr ("Unknown tool: " ++ tool_name)%string)])).

(** [_execute_tool]: the [try] with its [except Exception], which turns any
    exception into an error payload. *)
Definition _execute_tool (tool_name : string) (arguments : json)
  (st : Backend Ext) : string * Backend Ext :=
  match dispatch tool_name arguments st with
  | (Returned text, st') => (text, st')
  | (Raised e, st') => (dumps (JDict [("error"%string, JStr e)]), st')
  end.

(** The service calls one dispatch makes. *)
Definition new_calls (tool_name : string) (arguments : json)
  (st : Backend Ext) : list service_call :=
  drop (length (service_calls st))
       (service_calls (_execute_tool tool_name arguments st).2).

End ExecuteTool.

(** A call that changes the calendar. *)
Definition changes_calendar (c : service_call) : bool :=
  match c with
  | CreateCall _ | UpdateCall _ _ _ | DeleteCall _ => true
  | _ => false
  end.

End ToolDispatcher.

(** The names the dispatcher knows. *)
Definition tool_catalogue : list string :=
  ["check_availability"; "book_appointment"; "reschedule_appointment";
   "cancel_appointment"; "lookup_appointment"; "search_knowledge_base"]%string.

(** The arguments a tool reads with [arguments[key]], in the order in which
    the dispatcher reads them first. *)
Definition required_arguments (tool_name : string) : list string :=
  if bool_decide (tool_name = "check_availability"%string) then
    ["date"%string]
  else if bool_decide (tool_name = "book_appointment"%string) then
    ["service"; "customer_name"; "date"; "start_time"; "customer_phone"]%string
  else if bool_decide (tool_name = "reschedule_appointment"%string) then
    ["event_id"; "new_date"; "new_start_time"]%string
  else if bool_decide (tool_name = "cancel_appointment"%string) then
    ["event_id"%string]
  else if bool_decide (tool_name = "search_knowledge_base"%string) then
    ["query"%string]
  else [].

(** Services for concrete dispatches: a calendar that answers with a fixed
    list of slots and accepts every change, a catalogue that knows one
    service or none. *)
Record demo_services : Type := {
  demo_slots : list ToolDispatcher.json;
  demo_service : option ToolDispatcher.json
}.

#[global] Instance demo_tool_services : ToolDispatcher.ToolServices demo_services := {|
  ToolDispatcher.get_available_slots := fun _ _ _ s => (Returned (demo_slots s), s);
  ToolDispatcher.create_appointment := fun _ s =>
    (Returned (ToolDispatcher.JDict
                 [("event_id"%string, ToolDispatcher.JStr "event123");
                  ("status"%string, ToolDispatcher.JStr "confirmed")]), s);
  ToolDispatcher.update_appointment := fun _ _ _ s =>
    (Returned (ToolDispatcher.JDict
                 [("status"%string, ToolDispatcher.JStr "rescheduled")]), s);
  ToolDispatcher.delete_appointment := fun _ s =>
    (Returned (ToolDispatcher.JDict
                 [("status"%string, ToolDispatcher.JStr "cancelled")]), s);
  ToolDispatcher.find_appointment := fun _ _ s => (Returned [], s);
  ToolDispatcher.get_service_by_name := fun _ s => (Returned (demo_service s), s);
  ToolDispatcher.query := fun _ _ s => (Returned [], s)
|}.

(** A serializer for concrete dispatches (strings are not escaped). *)
Definition quoted (s : string) : string :=
  String (ascii_of_N 34) (s ++ String (ascii_of_N 34) EmptyString).

Fixpoint demo_dumps (v : ToolDispatcher.json) : string :=
  match v with
  | ToolDispatcher.JNull => "null"
  | ToolDispatcher.JBool true => "true"
  | ToolDispatcher.JBool false => "false"
  | ToolDispatcher.JNum z => pretty z
  | ToolDispatcher.JStr s => quoted s
  | ToolDispatcher.JList items =>
      "[" ++ String.concat ", " (map demo_dumps items) ++ "]"
  | ToolDispatcher.JDict items =>
      "{" ++ String.concat ", "
               (map (fun kv => quoted kv.1 ++ ": " ++ demo_dumps kv.2) items)
      ++ "}"
  end%string.

Definition demo_backend (s : demo_services) : ToolDispatcher.Backend demo_services :=
  {| ToolDispatcher.services := s; ToolDispatcher.service_calls := [] |}.

(** Seven free slots, and the catalogue entry of a 90-minute service. *)
Definition seven_slots : list ToolDispatcher.json :=
  map (fun k => ToolDispatcher.JDict
                  [("start_time"%string, ToolDispatcher.JNum k)])
      (seqZ 9 7).

Definition balayage : ToolDispatcher.json :=
  ToolDispatcher.JDict
    [("name"%string, ToolDispatcher.JStr "Balayage");
     ("duration_minutes"%string, ToolDispatcher.JNum 90)].

(** Complete arguments of a booking, without a duration. *)
Definition booking_arguments : list (string * ToolDispatcher.json) :=
  [("service"%string, ToolDispatcher.JStr "Balayage");
   ("customer_name"%string, ToolDispatcher.JStr "Jane Doe");
   ("date"%string, ToolDispatcher.JStr "2026-03-15");
   ("start_time"%string, ToolDispatcher.JStr "14:00");
   ("customer_phone"%string, ToolDispatcher.JStr "+15551234567")].

(** The request the dispatcher builds from [booking_arguments] when the
    catalogue knows [balayage]. *)
Definition balayage_booking : ToolDispatcher.booking :=
  {| ToolDispatcher.summary := "Balayage – Jane Doe";
     ToolDispatcher.date := ToolDispatcher.JStr "2026-03-15";
     ToolDispatcher.start_time := ToolDispatcher.JStr "14:00";
     ToolDispatcher.duration_minutes := ToolDispatcher.JNum 90;
     ToolDispatcher.customer_name := ToolDispatcher.JStr "Jane Doe";
     ToolDispatcher.customer_phone := ToolDispatcher.JStr "+15551234567";
     ToolDispatcher.service := ToolDispatcher.JStr "Balayage";
     ToolDispatcher.stylist := ToolDispatcher.JStr "";
     ToolDispatcher.notes := ToolDispatcher.JStr "" |}.

(** A salon whose calendar has seven free slots and whose catalogue knows
    [balayage]. *)
Definition demo_salon : demo_services :=
  {| demo_slots := seven_slots; demo_service := Some balayage |}.





(** * Properties *)

(** ** Calendar slot search *)

Section CalendarFacts.

Import CalendarService.

(** The three ways one test of the loop condition continues. *)
Lemma sweep_done date duration busy current :
  current + duration > day_end ->
  sweep date duration busy current = [].
Proof.
  intros Hgt. rewrite sweep_equation_1.
  by destruct (Z_le_gt_dec (current + duration) day_end); [lia|].
Qed.

Lemma sweep_jump date duration busy current busy_end :
  current + duration <= day_end ->
  first_conflict current (current + duration) busy = Some busy_end ->
  sweep date duration busy current
  = (current, None) :: sweep date duration busy busy_end.
Proof.
  intros Hle Hc. rewrite sweep_equation_1.
  destruct (Z_le_gt_dec (current + duration) day_end); [|lia].
  simpl.
  destruct (first_conflict current (current + duration) busy) eqn:E; [|done].
  by injection Hc as ->.
Qed.

Lemma sweep_emit date duration busy current :
  current + duration <= day_end ->
  first_conflict current (current + duration) busy = None ->
  sweep date duration busy current
  = (current, Some {| start_time := strftime_HM current;
                      end_time := strftime_HM (current + duration);
                      date := date |})
    :: sweep date duration busy (current + minutes 30).
Proof.
  intros Hle Hc. rewrite sweep_equation_1.
  destruct (Z_le_gt_dec (current + duration) day_end); [|lia].
  simpl.
  by destruct (first_conflict current (current + duration) busy) eqn:E.
Qed.

(** [first_conflict] finds the first busy period, in list order, that the
    candidate overlaps. *)
Lemma first_conflict_first current slot_end before busy_start busy_end after :
  Forall (fun p => ~ (current < p.2 /\ slot_end > p.1)) before ->
  current < busy_end ->
  slot_end > busy_start ->
  first_conflict current slot_end (before ++ (busy_start, busy_end) :: after)
  = Some busy_end.
Proof.
  intros Hbefore Hlt Hgt.
  induction Hbefore as [|[bs be] rest Hno _ IH]; simpl.
  - rewrite !bool_decide_eq_true_2 by done. done.
  - simpl in Hno.
    destruct (bool_decide (current < be)) eqn:E1;
      destruct (bool_decide (slot_end > bs)) eqn:E2; simpl; try apply IH.
    apply bool_decide_eq_true in E1, E2. tauto.
Qed.

(** A candidate that overlaps no busy period is free. *)
Lemma first_conflict_none current slot_end busy :
  Forall (fun p => ~ (current < p.2 /\ slot_end > p.1)) busy ->
  first_conflict current slot_end busy = None.
Proof.
  induction 1 as [|[bs be] rest Hno _ IH]; simpl; [done|].
  simpl in Hno.
  destruct (bool_decide (current < be)) eqn:E1;
    destruct (bool_decide (slot_end > bs)) eqn:E2; simpl; try apply IH.
  apply bool_decide_eq_true in E1, E2. tauto.
Qed.

(** C4.  With the business window 09:00-19:00, a calendar whose only event
    occupies [10:00, 11:00), a 60-minute duration and the 30-minute stride, no
    returned slot starts at 10:00 while slots starting at 09:00 and at 11:00
    are returned; and, for any busy periods and duration, a candidate that is
    examined and overlaps a busy period is followed, as the next candidate
    examined, by the end of the first busy period it overlaps. *)
Theorem sweep_skips_busy_interval (lower_in : string -> string -> bool)
  (date title details : string) :
  let busy := {| summary := title; description := details;
                 ev_start := 10 * 3600; ev_end := 11 * 3600 |} in
  let slots := get_available_slots lower_in date 60 None (Returned [busy]) in
  ~ In "10:00"%string (map start_time slots)
  /\ In "09:00"%string (map start_time slots)
  /\ In "11:00"%string (map start_time slots)
  /\ forall duration_minutes before busy_start busy_end after current,
       current + minutes duration_minutes <= day_end ->
       Forall (fun p => ~ (current < p.2 /\ current + minutes duration_minutes > p.1))
              before ->
       current < busy_end ->
       current + minutes duration_minutes > busy_start ->
       candidates date duration_minutes
         (before ++ (busy_start, busy_end) :: after) current
       = current
         :: candidates date duration_minutes
              (before ++ (busy_start, busy_end) :: after) busy_end.
Proof.
  repeat split.
  - vm_compute. intuition discriminate.
  - vm_compute. tauto.
  - vm_compute. tauto.
  - intros d before bs be after current Hle Hbefore Hlt Hgt.
    unfold candidates.
    rewrite (sweep_jump _ _ _ _ be); [done|done|].
    by apply first_conflict_first.
Qed.

(** The jump of C4 at the candidate 09:30 of the scenario: the next candidate
    examined is 11:00. *)
Lemma sweep_skips_busy_interval_witness :
  candidates "2026-03-15" 60 [(10 * 3600, 11 * 3600)] (9 * 3600 + 1800)
  = (9 * 3600 + 1800)
    :: candidates "2026-03-15" 60 [(10 * 3600, 11 * 3600)] (11 * 3600).
Proof.
  apply (proj2 (proj2 (proj2
           (sweep_skips_busy_interval (fun _ _ => false) "2026-03-15"
              "Existing appointment" "")))
           60 [] (10 * 3600) (11 * 3600) [] (9 * 3600 + 1800)).
  - vm_compute. discriminate.
  - constructor.
  - reflexivity.
  - reflexivity.
Defined.

(** C8.  On an empty calendar, for any date and stylist filter and a
    60-minute duration, the first returned slot is 09:00-10:00, the last is
    18:00-19:00, and the slots are the nineteen that start every 30 minutes
    from 09:00 on. *)
Theorem empty_calendar_slots (lower_in : string -> string -> bool)
  (date : string) (stylist : option string) :
  let slots := get_available_slots lower_in date 60 stylist (Returned []) in
  head slots = Some {| start_time := "09:00"; end_time := "10:00"; date := date |}
  /\ last slots = Some {| start_time := "18:00"; end_time := "19:00"; date := date |}
  /\ slots = map (fun k => {| start_time := strftime_HM (day_start + minutes (30 * k));
                              end_time := strftime_HM (day_start + minutes (30 * k)
                                                       + minutes 60);
                              date := date |})
                 (seqZ 0 19).
Proof.
  assert (Hs : get_available_slots lower_in date 60 stylist (Returned [])
               = find_slots date 60 []).
  { unfold get_available_slots. destruct stylist as [s|]; [|done].
    by case_bool_decide. }
  cbv zeta. rewrite Hs. by vm_compute.
Qed.

End CalendarFacts.

(** ** Conversation engine *)

Section AgentFacts.

Import LLMAgent.

Context {Ext : Type} `{Collaborators Ext}.

Lemma tool_names_app l1 l2 : tool_names (l1 ++ l2) = tool_names l1 ++ tool_names l2.
Proof. unfold tool_names. apply omap_app. Qed.

Lemma llm_outcomes_app l1 l2 :
  llm_outcomes (l1 ++ l2) = llm_outcomes l1 ++ llm_outcomes l2.
Proof. unfold llm_outcomes. apply omap_app. Qed.

Lemma run_tool_calls_spec tcs messages tools env :
  exists results log e',
    run_tool_calls tcs messages tools env
    = (messages ++ results, tools ++ map fn_name tcs,
       {| ext := e'; calls := calls env ++ log |})
    /\ forallb is_tool_call log = true
    /\ tool_names log = map fn_name tcs
    /\ forallb is_tool_record results = true.
Proof.
  revert messages tools env.
  induction tcs as [|tc rest IH]; intros messages tools env; simpl.
  - exists [], [], (ext env). rewrite !app_nil_r. by destruct env.
  - unfold execute_tool.
    destruct (dispatch_tool (fn_name tc) (fn_arguments tc) (ext env)) as [r e'] eqn:E.
    destruct (IH (messages ++ [ToolResult (tc_id tc) r]) (tools ++ [fn_name tc])
                 (logged env e' (ToolCall (fn_name tc) (fn_arguments tc) r)))
      as (results & log & e2 & Heq & Hlog & Hnames & Hres).
    exists (ToolResult (tc_id tc) r :: results),
           (ToolCall (fn_name tc) (fn_arguments tc) r :: log), e2.
    rewrite Heq. simpl. rewrite <- !app_assoc. simpl.
    repeat split; try done. by rewrite Hnames.
Qed.


Lemma tool_log_no_llm log :
  forallb is_tool_call log = true -> llm_outcomes log = [].
Proof.
  induction log as [|c log IH]; [done|].
  by destruct c.
Qed.

(** Every run of the round loop leaves a log of the shape [turn_log], returns
    the tools it dispatched, and every backend answer in the log is an answer
    of the backend. *)
Lemma chat_rounds_log rounds hist text messages tools env :
  exists log resp h e',
    chat_rounds rounds hist text messages tools env
    = ((resp, h, tools ++ tool_names log),
       {| ext := e'; calls := calls env ++ log |})
    /\ turn_log hist text rounds log resp h
    /\ Forall (fun o => exists msgs e, o = (completions_create msgs e).1)
              (llm_outcomes log).
Proof.
  revert messages tools env.
  induction rounds as [|rounds IH]; intros messages tools env; simpl.
  - exists [], stall_phrase, hist, (ext env). rewrite !app_nil_r.
    split; [by destruct env|]. split; [constructor|constructor].
  - unfold create_completion.
    destruct (completions_create messages (ext env)) as [r e'] eqn:E.
    destruct r as [err|choice].
    + exists [LlmCall messages (Raised err)], api_error_phrase, hist, e'.
      simpl. rewrite app_nil_r. repeat split; [constructor|].
      constructor; [|constructor]. exists messages, (ext env). by rewrite E.
    + destruct (tool_calls choice) as [|tc tcs] eqn:Etc.
      * exists [LlmCall messages (Returned choice)], (content_or_empty choice),
          (hist ++ [user_message_of text;
                    assistant_message_of (content_or_empty choice)]), e'.
        simpl. rewrite app_nil_r. repeat split; [by constructor|].
        constructor; [|constructor]. exists messages, (ext env). by rewrite E.
      * rewrite <- Etc.
        destruct (run_tool_calls_spec (tool_calls choice)
                    (messages ++ [AssistantToolCalls choice]) tools
                    (logged env e' (LlmCall messages (Returned choice))))
          as (results & tlog & e1 & Heq & Htl & Hnames & _).
        rewrite Heq.
        match goal with
        | |- context [chat_rounds rounds hist text ?m ?t ?v] =>
            destruct (IH m t v) as (log & resp & h & e2 & Hrun & Hshape & Hans)
        end.
        exists (LlmCall messages (Returned choice) :: tlog ++ log), resp, h, e2.
        rewrite Hrun. simpl.
        rewrite !tool_names_app, Hnames, <- !app_assoc. simpl.
        repeat split.
        -- constructor; try done. by rewrite Etc.
        -- constructor; [exists messages, (ext env); by rewrite E|].
           by rewrite llm_outcomes_app, (tool_log_no_llm tlog).
Qed.

Lemma turn_log_budget hist text rounds log resp h :
  turn_log hist text rounds log resp h ->
  (length (llm_outcomes log) <= rounds)%nat.
Proof.
  induction 1; simpl; try lia.
  rewrite llm_outcomes_app, (tool_log_no_llm tool_log) by done. simpl. lia.
Qed.

Lemma turn_log_names hist text rounds log resp h :
  turn_log hist text rounds log resp h ->
  tool_names log = requested_names (llm_outcomes log).
Proof.
  induction 1; simpl; try done.
  - unfold requested_names. simpl. by rewrite H0.
  - rewrite llm_outcomes_app, (tool_log_no_llm tool_log) by done. simpl.
    unfold requested_names in *. simpl.
    by rewrite tool_names_app, IHturn_log, H2.
Qed.


(** A turn in which every backend answer asked for tools used the whole
    budget and ends with the stall phrase and the history it started from. *)
Lemma turn_log_exhausted hist text rounds log resp h :
  turn_log hist text rounds log resp h ->
  forallb requests_tools (llm_outcomes log) = true ->
  length (llm_outcomes log) = rounds /\ resp = stall_phrase /\ h = hist.
Proof.
  induction 1 as [| | rounds msgs choice Hnone
                  | rounds msgs choice tlog rest resp h Hsome Htl Hnames Hrest IH];
    simpl; try done.
  - by rewrite Hnone.
  - rewrite llm_outcomes_app, (tool_log_no_llm tlog) by done. simpl.
    intros [_ Hall]%andb_prop. destruct (IH Hall) as (<- & -> & ->). done.
Qed.

(** A raised backend invocation is the last call of its turn, which ends
    with the fallback phrase and the history it started from. *)
Lemma turn_log_error hist text rounds log resp h e :
  turn_log hist text rounds log resp h ->
  In (Raised e) (llm_outcomes log) ->
  (exists msgs, last log = Some (LlmCall msgs (Raised e)))
  /\ resp = api_error_phrase /\ h = hist.
Proof.
  induction 1 as [| rounds msgs e' | rounds msgs choice Hnone
                  | rounds msgs choice tlog rest resp h Hsome Htl Hnames Hrest IH];
    simpl.
  - done.
  - intros [[= ->]|[]]. eauto.
  - intros [[=]|[]].
  - rewrite llm_outcomes_app, (tool_log_no_llm tlog) by done. simpl.
    intros [[=]|Hin]. destruct (IH Hin) as ((m & Hlast) & -> & ->).
    split; [|done]. exists m.
    rewrite last_cons, last_app, Hlast. done.
Qed.

(** A turn whose last backend answer is plain text ends with that text and
    the history extended by the user entry and the assistant entry. *)
Lemma turn_log_final hist text rounds log resp h choice :
  turn_log hist text rounds log resp h ->
  last (llm_outcomes log) = Some (Returned choice) ->
  tool_calls choice = [] ->
  resp = content_or_empty choice
  /\ h = hist ++ [user_message_of text;
                  assistant_message_of (content_or_empty choice)].
Proof.
  induction 1 as [| rounds msgs e' | rounds msgs choice' Hnone
                  | rounds msgs choice' tlog rest resp h Hsome Htl Hnames Hrest IH];
    simpl; try done.
  - by intros [= ->].
  - rewrite llm_outcomes_app, (tool_log_no_llm tlog) by done. simpl.
    intros Hlast Hnone. rewrite last_cons in Hlast.
    destruct (last (llm_outcomes rest)) as [o|] eqn:El.
    + apply IH; [done|done].
    + injection Hlast as ->. congruence.
Qed.

(** The trimmed history keeps entries of the input, in their order. *)
Lemma trim_history_sublist h : trim_history h `sublist_of` h.
Proof.
  unfold trim_history, MAX_HISTORY. case_bool_decide; [|done].
  replace (length h - 36)%nat with (4 + (length h - 40))%nat by lia.
  rewrite <- drop_drop.
  transitivity (take 4 h ++ drop 4 h); [|by rewrite take_drop].
  apply sublist_app; [done|apply sublist_drop].
Qed.

Lemma trim_history_short h : (length h <= 40)%nat -> trim_history h = h.
Proof.
  intros Hle. unfold trim_history, MAX_HISTORY. case_bool_decide; [lia|done].
Qed.

(** [chat] as a whole: its result, its log, and the provenance of the
    answers in the log. *)
Lemma chat_log h text sid env :
  exists resp hist e',
    chat h text sid env
    = ((resp, hist, tool_names (turn_calls h text sid env)),
       {| ext := e'; calls := calls env ++ turn_calls h text sid env |})
    /\ turn_log (trim_history h) text max_tool_rounds
         (turn_calls h text sid env) resp hist
    /\ Forall (fun o => exists msgs e, o = (completions_create msgs e).1)
              (llm_outcomes (turn_calls h text sid env)).
Proof.
  unfold turn_calls, chat.
  match goal with
  | |- context [chat_rounds ?n ?hh ?t ?m ?tl ?v] =>
      destruct (chat_rounds_log n hh t m tl v)
        as (log & resp & hist & e' & Hrun & Hshape & Hans)
  end.
  rewrite Hrun. simpl. rewrite drop_app_length.
  by exists resp, hist, e'.
Qed.


(** C2.  Trimming leaves a history of at most 40 entries unchanged; a
    history of 100 entries is trimmed to exactly 40, the first 4 being the
    first 4 of the input and the other 36 the last 36 of the input, in
    order. *)
Theorem trim_history_window (h : list message) :
  ((length h <= 40)%nat -> trim_history h = h)
  /\ (length h = 100%nat ->
      length (trim_history h) = 40%nat
      /\ take 4 (trim_history h) = take 4 h
      /\ drop 4 (trim_history h) = drop 64 h).
Proof.
  split; [apply trim_history_short|].
  intros Hlen. unfold trim_history, MAX_HISTORY. rewrite Hlen. simpl.
  assert (Hfour : length (take 4 h) = 4%nat) by (rewrite length_take; lia).
  repeat split.
  - rewrite length_app, length_drop. lia.
  - by rewrite take_app_length'.
  - by rewrite drop_app_length'.
Qed.

(** A backend that asks for tools at every invocation does so at every
    invocation of a turn. *)
Lemma always_requests_tools (h : list message) (text sid : string) (env : Env Ext) :
  (forall msgs e, requests_tools (completions_create msgs e).1 = true) ->
  forallb requests_tools (llm_outcomes (turn_calls h text sid env)) = true.
Proof.
  intros Halways.
  destruct (chat_log h text sid env) as (resp & hist & e' & _ & _ & Hans).
  apply forallb_forall. intros o Hin.
  rewrite Forall_forall in Hans.
  destruct (Hans o) as (msgs & e & ->); [by apply list_elem_of_In|].
  apply Halways.
Qed.

(** C1 (as the code has it).  One [chat] invokes the backend at most 5
    times, whatever the backend does.  When every answer of the turn asked for
    tools, as with a backend that always does, the budget ran out without a
    plain-text answer: the backend was invoked 5 times and [chat] returns the
    stall-recovery phrase together with the trimmed input history, to which
    the turn added nothing; that is the input history itself when it has at
    most 40 entries. *)
Theorem round_budget (h : list message) (text sid : string) (env : Env Ext) :
  (length (llm_outcomes (turn_calls h text sid env)) <= 5)%nat
  /\ (forallb requests_tools (llm_outcomes (turn_calls h text sid env)) = true ->
      length (llm_outcomes (turn_calls h text sid env)) = 5%nat
      /\ (chat h text sid env).1
         = (stall_phrase, trim_history h, tool_names (turn_calls h text sid env))
      /\ trim_history h `sublist_of` h
      /\ ((length h <= 40)%nat -> (chat h text sid env).1.1.2 = h)).
Proof.
  destruct (chat_log h text sid env) as (resp & hist & e' & Hrun & Hshape & _).
  split; [by apply turn_log_budget in Hshape|].
  intros Hall.
  destruct (turn_log_exhausted _ _ _ _ _ _ Hshape Hall) as (Hfive & -> & ->).
  rewrite Hrun. simpl. repeat split; [done|apply trim_history_sublist|].
  apply trim_history_short.
Qed.

(** C5 (as the code has it).  When a backend invocation of the turn
    raises, it is the last call of the turn, and [chat] returns the fallback
    phrase together with the trimmed input history, to which the turn added
    nothing; that is the input history itself when it has at most 40
    entries. *)
Theorem backend_error_aborts (h : list message) (text sid : string)
  (env : Env Ext) (e : string) :
  In (Raised e) (llm_outcomes (turn_calls h text sid env)) ->
  (exists msgs, last (turn_calls h text sid env) = Some (LlmCall msgs (Raised e)))
  /\ (chat h text sid env).1
     = (api_error_phrase, trim_history h, tool_names (turn_calls h text sid env))
  /\ trim_history h `sublist_of` h
  /\ ((length h <= 40)%nat -> (chat h text sid env).1.1.2 = h).
Proof.
  intros Hin.
  destruct (chat_log h text sid env) as (resp & hist & e' & Hrun & Hshape & _).
  destruct (turn_log_error _ _ _ _ _ _ _ Hshape Hin) as (Hlast & -> & ->).
  rewrite Hrun. simpl. repeat split; [done|apply trim_history_sublist|].
  apply trim_history_short.
Qed.

(** C6 (as the code has it).  When the last backend answer of the turn is
    plain text, [chat] returns that text; the returned history is the trimmed
    input history followed by exactly two entries, the user entry with the new
    text and the assistant entry with the answer, and holds no record of the
    tool rounds; the tools-called list names every tool the backend asked for,
    once per invocation and in order, and these are the tools dispatched.
    For an input of at most 40 entries the returned history is the input
    history followed by the two entries. *)
Theorem tool_rounds_then_text (h : list message) (text sid : string)
  (env : Env Ext) (choice : completion) (answer : string) :
  last (llm_outcomes (turn_calls h text sid env)) = Some (Returned choice) ->
  tool_calls choice = [] ->
  content choice = Some answer ->
  (chat h text sid env).1
  = (answer,
     trim_history h ++ [user_message_of text; assistant_message_of answer],
     requested_names (llm_outcomes (turn_calls h text sid env)))
  /\ tool_names (turn_calls h text sid env)
     = requested_names (llm_outcomes (turn_calls h text sid env))
  /\ trim_history h `sublist_of` h
  /\ ((length h <= 40)%nat ->
      (chat h text sid env).1.1.2
      = h ++ [user_message_of text; assistant_message_of answer]).
Proof.
  intros Hlast Hnone Hanswer.
  destruct (chat_log h text sid env) as (resp & hist & e' & Hrun & Hshape & _).
  destruct (turn_log_final _ _ _ _ _ _ _ Hshape Hlast Hnone) as (-> & ->).
  pose proof (turn_log_names _ _ _ _ _ _ Hshape) as Hnames.
  assert (Htext : content_or_empty choice = answer).
  { unfold content_or_empty. by rewrite Hanswer. }
  rewrite Hrun, Htext, Hnames. simpl.
  repeat split; [apply trim_history_sublist|].
  intros Hle. by rewrite trim_history_short.
Qed.

End AgentFacts.

(** Concrete runs of the conversation engine. *)

Section AgentRuns.

Import LLMAgent.

Lemma trim_history_window_witness :
  trim_history [user_message_of "Hello"] = [user_message_of "Hello"]
  /\ length (trim_history (replicate 100 (user_message_of "Hello"))) = 40%nat
  /\ take 4 (trim_history (replicate 100 (user_message_of "Hello")))
     = take 4 (replicate 100 (user_message_of "Hello"))
  /\ drop 4 (trim_history (replicate 100 (user_message_of "Hello")))
     = drop 64 (replicate 100 (user_message_of "Hello")).
Proof.
  split.
  - apply (proj1 (trim_history_window [user_message_of "Hello"])). simpl. lia.
  - apply (proj2 (trim_history_window (replicate 100 (user_message_of "Hello")))).
    reflexivity.
Defined.

(** C1 at a backend that always asks for a tool, on a one-entry history:
    five invocations, the stall phrase, the history as it was. *)
Lemma round_budget_witness :
  (chat [assistant_message_of "Welcome!"] "How much is a haircut?" "CA1"
        (fresh_env always_tools)).1
  = (stall_phrase, [assistant_message_of "Welcome!"],
     replicate 5 "search_knowledge_base"%string)
  /\ length (llm_outcomes (turn_calls [assistant_message_of "Welcome!"]
                             "How much is a haircut?" "CA1"
                             (fresh_env always_tools))) = 5%nat.
Proof.
  split; [|reflexivity].
  destruct (proj2 (round_budget [assistant_message_of "Welcome!"]
                     "How much is a haircut?" "CA1" (fresh_env always_tools)))
    as (_ & Hrun & _ & _); [reflexivity|].
  rewrite Hrun. reflexivity.
Defined.

(** C1 as stated fails on the 41-entry history: every answer of the turn asks
    for a tool and the stall phrase is returned, yet the returned history has
    40 entries and is not the input history. *)
Lemma round_budget_counterexample :
  forallb requests_tools
    (llm_outcomes (turn_calls long_history "How much is a haircut?" "CA1"
                     (fresh_env always_tools))) = true
  /\ (chat long_history "How much is a haircut?" "CA1"
           (fresh_env always_tools)).1.1.1 = stall_phrase
  /\ length long_history = 41%nat
  /\ length (chat long_history "How much is a haircut?" "CA1"
                  (fresh_env always_tools)).1.1.2 = 40%nat
  /\ (chat long_history "How much is a haircut?" "CA1"
           (fresh_env always_tools)).1.1.2 <> long_history.
Proof.
  repeat split; try reflexivity.
  intros Heq. apply (f_equal length) in Heq. vm_compute in Heq. discriminate.
Qed.

(** C5 at a backend that asks for a tool and then fails: the fallback
    phrase, the one-entry history as it was, nothing of the tool round. *)
Lemma backend_error_aborts_witness :
  In (Raised "API timeout")
     (llm_outcomes (turn_calls [assistant_message_of "Welcome!"]
                      "How much is a haircut?" "CA1" (fresh_env tools_then_error)))
  /\ (chat [assistant_message_of "Welcome!"] "How much is a haircut?" "CA1"
           (fresh_env tools_then_error)).1
     = (api_error_phrase, [assistant_message_of "Welcome!"],
        ["search_knowledge_base"%string]).
Proof.
  assert (Hin : In (Raised "API timeout")
                  (llm_outcomes (turn_calls [assistant_message_of "Welcome!"]
                                   "How much is a haircut?" "CA1"
                                   (fresh_env tools_then_error)))).
  { vm_compute. tauto. }
  split; [exact Hin|].
  destruct (backend_error_aborts [assistant_message_of "Welcome!"]
              "How much is a haircut?" "CA1" (fresh_env tools_then_error)
              "API timeout" Hin) as (_ & Hrun & _ & _).
  rewrite Hrun. reflexivity.
Defined.

(** C5 as stated fails on the 41-entry history: the backend raises and the
    fallback phrase is returned, yet the returned history has 40 entries and
    is not the input history. *)
Lemma backend_error_counterexample :
  In (Raised "API timeout")
     (llm_outcomes (turn_calls long_history "How much is a haircut?" "CA1"
                      (fresh_env tools_then_error)))
  /\ (chat long_history "How much is a haircut?" "CA1"
           (fresh_env tools_then_error)).1.1.1 = api_error_phrase
  /\ length long_history = 41%nat
  /\ length (chat long_history "How much is a haircut?" "CA1"
                  (fresh_env tools_then_error)).1.1.2 = 40%nat
  /\ (chat long_history "How much is a haircut?" "CA1"
           (fresh_env tools_then_error)).1.1.2 <> long_history.
Proof.
  split; [vm_compute; tauto|].
  repeat split; try reflexivity.
  intros Heq. apply (f_equal length) in Heq. vm_compute in Heq. discriminate.
Qed.

(** C6 at the scenario of the test suite: one knowledge-base search, then
    the final text, on an empty history. *)
Lemma tool_rounds_then_text_witness :
  (chat [] "How much is a haircut?" "CA1" (fresh_env tools_then_text)).1
  = ("A women's haircut is $85."%string,
     [user_message_of "How much is a haircut?";
      assistant_message_of "A women's haircut is $85."],
     ["search_knowledge_base"%string]).
Proof.
  destruct (tool_rounds_then_text [] "How much is a haircut?" "CA1"
              (fresh_env tools_then_text)
              (plain_answer "A women's haircut is $85.")
              "A women's haircut is $85.")
    as (Hrun & _); [reflexivity|reflexivity|reflexivity|].
  rewrite Hrun. reflexivity.
Defined.

(** C6 as stated fails on the 41-entry history: the backend asks for a tool
    and then answers in plain text, yet the returned history has 42 entries
    and is not the input history followed by two entries. *)
Lemma tool_rounds_then_text_counterexample :
  llm_outcomes (turn_calls long_history "How much is a haircut?" "CA1"
                  (fresh_env tools_then_text))
  = [Returned search_request; Returned (plain_answer "A women's haircut is $85.")]
  /\ (chat long_history "How much is a haircut?" "CA1"
           (fresh_env tools_then_text)).1.1.1 = "A women's haircut is $85."%string
  /\ length (chat long_history "How much is a haircut?" "CA1"
                  (fresh_env tools_then_text)).1.1.2 = 42%nat
  /\ (chat long_history "How much is a haircut?" "CA1"
           (fresh_env tools_then_text)).1.1.2
     <> long_history ++ [user_message_of "How much is a haircut?";
                         assistant_message_of "A women's haircut is $85."].
Proof.
  repeat split; try reflexivity.
  intros Heq. apply (f_equal length) in Heq. vm_compute in Heq. discriminate.
Qed.

End AgentRuns.

(** ** Utterance segmenter *)

Section SegmenterFacts.

Import Voice.

Variable rms_energy : list Byte.byte -> Z.

Context {Ext : Type} `{Collaborators Ext}.

Lemma segment_all_suppressed payloads s :
  is_processing s = true ->
  segment_all rms_energy payloads s = (s, []).
Proof.
  intros Hs. induction payloads as [|p rest IH]; simpl; [done|].
  unfold segment. by rewrite Hs, IH.
Qed.

(** A frame above the speech threshold is buffered, marks speech and clears
    the silence counter; it never completes an utterance. *)
Lemma listen_speech chunk s :
  rms_energy chunk > SPEECH_RMS_THRESHOLD ->
  is_processing s = false ->
  listen rms_energy chunk s = (hearing (audio_buffer s ++ chunk) 0, None).
Proof.
  intros Hrms Hs. unfold listen, hearing.
  rewrite bool_decide_eq_true_2 by done. simpl. by rewrite Hs.
Qed.

Lemma segment_all_speech frames first :
  Forall (fun f => rms_energy f > SPEECH_RMS_THRESHOLD) (first :: frames) ->
  forall s, is_processing s = false ->
  segment_all rms_energy (map Some (first :: frames)) s
  = (hearing (audio_buffer s ++ concat (first :: frames)) 0, []).
Proof.
  revert first. induction frames as [|f rest IH]; intros first Hall s Hs.
  - apply Forall_cons_1 in Hall as [Hf _]. simpl.
    unfold segment. rewrite Hs, listen_speech by done. simpl.
    by rewrite app_nil_r.
  - apply Forall_cons_1 in Hall as [Hf Hrest].
    change (map Some (first :: f :: rest)) with (Some first :: map Some (f :: rest)).
    cbn [segment_all]. unfold segment at 1. rewrite Hs, listen_speech by done.
    rewrite IH by done. simpl. by rewrite <- !app_assoc.
Qed.

(** A quiet frame during speech is buffered and counted; it completes the
    utterance exactly when the counter reaches the silence threshold and the
    buffer is longer than the chunk threshold. *)
Lemma listen_quiet chunk buffer silence :
  rms_energy chunk <= SPEECH_RMS_THRESHOLD ->
  listen rms_energy chunk (hearing buffer silence)
  = if bool_decide (SILENCE_THRESHOLD <= S silence)%nat
       && bool_decide (CHUNK_THRESHOLD < length (buffer ++ chunk))%nat
    then (handed_over, Some (buffer ++ chunk))
    else (hearing (buffer ++ chunk) (S silence), None).
Proof.
  intros Hrms. unfold listen, hearing. simpl.
  rewrite bool_decide_eq_false_2 by lia. simpl.
  by destruct (_ && _).
Qed.

Lemma segment_all_quiet frames : forall buffer silence,
  Forall (fun f => rms_energy f <= SPEECH_RMS_THRESHOLD) frames ->
  (silence + length frames < SILENCE_THRESHOLD
   \/ length (buffer ++ concat frames) <= CHUNK_THRESHOLD)%nat ->
  segment_all rms_energy (map Some frames) (hearing buffer silence)
  = (hearing (buffer ++ concat frames) (silence + length frames), []).
Proof.
  induction frames as [|f rest IH]; intros buffer silence Hall Hno; simpl.
  - by rewrite app_nil_r, Nat.add_0_r.
  - apply Forall_cons_1 in Hall as [Hf Hrest].
    unfold segment at 1. simpl. rewrite listen_quiet by done.
    simpl in Hno. rewrite !length_app in Hno.
    destruct (bool_decide (SILENCE_THRESHOLD <= S silence)%nat) eqn:E1;
      destruct (bool_decide (CHUNK_THRESHOLD < length (buffer ++ f))%nat) eqn:E2;
      simpl.
    1: { apply bool_decide_eq_true in E1, E2. rewrite length_app in E2. lia. }
    all: rewrite IH by (try done; rewrite !length_app; lia).
    all: by rewrite <- !app_assoc, Nat.add_succ_r.
Qed.


Lemma segment_all_app l1 l2 s :
  segment_all rms_energy (l1 ++ l2) s
  = let '(s1, u1) := segment_all rms_energy l1 s in
    let '(s2, u2) := segment_all rms_energy l2 s1 in
    (s2, u1 ++ u2).
Proof.
  revert s. induction l1 as [|p rest IH]; intros s; simpl.
  - by destruct (segment_all rms_energy l2 s).
  - destruct (segment rms_energy p s) as [s1 emitted].
    rewrite IH.
    destruct (segment_all rms_energy rest s1) as [s2 u1].
    destruct (segment_all rms_energy l2 s2) as [s3 u2].
    by destruct emitted.
Qed.

(** C3 (as the code has it).  From locals that are not suppressed, a run of
    at least one frame above the speech threshold followed by frames not
    above it makes the segmenter emit exactly one utterance, at the first
    quiet frame ([closing]) at which the silence counter has reached 30 and
    the buffer is longer than 3200 bytes.  The utterance is the buffer up to
    and including that frame: what the buffer held before, then every frame of
    the run so far.  Right after it the buffer is empty, the speaking flag
    false, the silence counter 0 and the suppressed flag set; frames that
    follow while the flag stays set are discarded. *)
Theorem segmenter_emission (s : segmenter) (first : list Byte.byte)
  (speech quiet : list (list Byte.byte)) (closing : list Byte.byte)
  (after : list (option (list Byte.byte))) :
  is_processing s = false ->
  Forall (fun f => rms_energy f > SPEECH_RMS_THRESHOLD) (first :: speech) ->
  Forall (fun f => rms_energy f <= SPEECH_RMS_THRESHOLD) (quiet ++ [closing]) ->
  (SILENCE_THRESHOLD <= length (quiet ++ [closing]))%nat ->
  (CHUNK_THRESHOLD
   < length (audio_buffer s ++ concat (first :: speech)
             ++ concat (quiet ++ [closing])))%nat ->
  (length (quiet ++ [closing]) = SILENCE_THRESHOLD
   \/ length (audio_buffer s ++ concat (first :: speech) ++ concat quiet)
      <= CHUNK_THRESHOLD)%nat ->
  segment_all rms_energy
    (map Some ((first :: speech) ++ quiet ++ [closing]) ++ after) s
  = (handed_over,
     [audio_buffer s ++ concat (first :: speech) ++ concat (quiet ++ [closing])]).
Proof.
  intros Hs Hspeech Hquiet Hsilence Hbytes Hfirst.
  apply Forall_app in Hquiet as [Hquiet Hclosing].
  apply Forall_cons_1 in Hclosing as [Hclosing _].
  rewrite length_app in Hsilence, Hfirst. simpl in Hsilence, Hfirst.
  rewrite !map_app, !segment_all_app.
  rewrite segment_all_speech by done.
  rewrite segment_all_app, segment_all_quiet; [|done|].
  2: { destruct Hfirst as [Hfirst|Hfirst]; [left; lia|right].
       by rewrite <- app_assoc. }
  simpl. unfold segment at 1. simpl. rewrite listen_quiet by done.
  rewrite !bool_decide_eq_true_2.
  - simpl. rewrite segment_all_suppressed by done.
    by rewrite concat_app, <- !app_assoc; simpl; rewrite app_nil_r.
  - revert Hbytes. rewrite concat_app. simpl.
    by rewrite app_nil_r, <- !app_assoc.
  - unfold SILENCE_THRESHOLD in *. lia.
Qed.

(** C7.  While the suppressed flag is set, a media frame changes nothing: the
    segmentation step returns the same locals and no utterance, whatever the
    frame; so does any run of frames; and the [media] branch of the handler
    returns the connection as it was without calling the pipeline or touching
    the orchestrator. *)
Theorem suppressed_frames_discarded (s : segmenter) :
  is_processing s = true ->
  (forall payload, segment rms_energy payload s = (s, None))
  /\ (forall payloads, segment_all rms_energy payloads s = (s, []))
  /\ (forall (c : connection) payload (st : CallOrchestrator.State Ext),
        seg c = s ->
        handle_media rms_energy payload c st = (Returned c, st)).
Proof.
  intros Hs. repeat split.
  - intros payload. unfold segment. by rewrite Hs.
  - intros payloads. by apply segment_all_suppressed.
  - intros c payload st <-. unfold handle_media, segment. rewrite Hs.
    by destruct c.
Qed.

End SegmenterFacts.

(** Concrete runs of the segmenter, with the G.711 energy estimate. *)

Section SegmenterRuns.

Import Voice.

(** C3 with one loud frame and thirty quiet ones, 160 bytes each. *)
Lemma segmenter_emission_witness :
  segment_all ulaw_rms
    (map Some ([loud_frame] ++ replicate 29 quiet_frame ++ [quiet_frame]) ++ [])
    listening
  = (handed_over,
     [[] ++ concat [loud_frame]
         ++ concat (replicate 29 quiet_frame ++ [quiet_frame])]).
Proof.
  apply (segmenter_emission ulaw_rms listening loud_frame []
           (replicate 29 quiet_frame) quiet_frame []).
  - reflexivity.
  - apply (bool_decide_unpack _). by vm_compute.
  - apply (bool_decide_unpack _). by vm_compute.
  - vm_compute. lia.
  - vm_compute. lia.
  - left. reflexivity.
Defined.

(** C3 as stated fails in two ways.  With one loud frame and 31 quiet ones
    the utterance is emitted at the thirtieth quiet frame and lacks the last
    frame of the run.  With a buffer of exactly 3200 bytes at the thirtieth
    quiet frame nothing is emitted. *)
Lemma segmenter_emission_counterexample :
  (ulaw_rms loud_frame > SPEECH_RMS_THRESHOLD
   /\ ulaw_rms quiet_frame < SPEECH_RMS_THRESHOLD
   /\ (CHUNK_THRESHOLD <= length (concat (loud_frame :: replicate 31 quiet_frame)))%nat
   /\ (segment_all ulaw_rms (map Some (loud_frame :: replicate 31 quiet_frame))
         listening).2
      = [concat (loud_frame :: replicate 30 quiet_frame)]
   /\ (segment_all ulaw_rms (map Some (loud_frame :: replicate 31 quiet_frame))
         listening).2
      <> [concat (loud_frame :: replicate 31 quiet_frame)])
  /\ (ulaw_rms (replicate 200 Byte.x00) > SPEECH_RMS_THRESHOLD
      /\ ulaw_rms (replicate 100 Byte.xff) < SPEECH_RMS_THRESHOLD
      /\ length (concat (replicate 200 Byte.x00
                         :: replicate 30 (replicate 100 Byte.xff))) = CHUNK_THRESHOLD
      /\ (segment_all ulaw_rms
            (map Some (replicate 200 Byte.x00 :: replicate 30 (replicate 100 Byte.xff)))
            listening).2 = []).
Proof.
  split.
  - split; [by vm_compute|]. split; [by vm_compute|].
    split; [vm_compute; lia|]. split; [by vm_compute|].
    intros Heq. apply (f_equal (fun l => length <$> l)) in Heq.
    vm_compute in Heq. discriminate.
  - repeat split; by vm_compute.
Qed.

(** C7 right after an utterance was handed over: a loud frame is dropped. *)
Lemma suppressed_frames_discarded_witness :
  segment ulaw_rms (Some loud_frame) handed_over = (handed_over, None)
  /\ segment_all ulaw_rms [Some loud_frame; Some quiet_frame; None] handed_over
     = (handed_over, []).
Proof.
  destruct (suppressed_frames_discarded ulaw_rms (Ext := scripted) handed_over)
    as (Hone & Hall & _); [reflexivity|].
  split; [apply Hone|apply Hall].
Defined.

End SegmenterRuns.

(** ** Turn pipeline *)

Section OrchestratorFacts.

Import CallOrchestrator.

Context {Ext : Type} `{Collaborators Ext}.

(** C9 (as the code has it).  For an active session, when transcription
    raises, [process_customer_audio] calls transcription and then the
    synthesis of the apologetic fallback phrase, and nothing else: the
    conversation engine is not invoked and no agent response is synthesized.
    It returns the fallback phrase with the synthesized audio when that
    synthesis succeeds, and passes the exception on when it raises.  The
    session store, and so the conversation history, is unchanged either way.
    When audio is returned, is not empty and the stream is known, the handler
    sends it and keeps the suppressed flag set for the playback. *)
Theorem transcription_failure (sid : string) (audio : list Byte.byte)
  (st : State Ext) (session : CallSession) (e : string) :
  active_sessions st !! sid = Some session ->
  (speech_to_text audio (ext (env st))).1 = Raised e ->
  let synth :=
    text_to_speech_base64 stt_error_response
      (speech_to_text audio (ext (env st))).2 in
  let r := process_customer_audio sid audio st in
  r.1 = match synth.1 with
        | Returned error_audio => Returned (stt_error_response, error_audio)
        | Raised e' => Raised e'
        end
  /\ active_sessions r.2 = active_sessions st
  /\ calls (env r.2)
     = calls (env st)
       ++ [SttCall audio (Raised e); TtsCall stt_error_response synth.1]
  /\ ext (env r.2) = synth.2
  /\ forall (c : Voice.connection) stream error_audio,
       Voice.call_sid c = Some sid ->
       Voice.stream_sid c = Some stream ->
       nonempty stream = true ->
       synth.1 = Returned error_audio ->
       nonempty error_audio = true ->
       (send_audio stream error_audio synth.2).1 = Returned tt ->
       (Voice.run_turn c audio st).1 = Returned true.
Proof.
  intros Hsession Hstt. cbv zeta.
  assert (Hrun : process_customer_audio sid audio st
    = let synth := text_to_speech_base64 stt_error_response
                     (speech_to_text audio (ext (env st))).2 in
      (match synth.1 with
       | Returned error_audio => Returned (stt_error_response, error_audio)
       | Raised e' => Raised e'
       end,
       {| active_sessions := active_sessions st;
          env := {| ext := synth.2;
                    calls := calls (env st)
                             ++ [SttCall audio (Raised e);
                                 TtsCall stt_error_response synth.1] |} |})).
  { unfold process_customer_audio, bind, get_session, gets, attempt, stt, tts,
      call_out, ret.
    rewrite Hsession.
    destruct (speech_to_text audio (ext (env st))) as [r1 e1]. simpl in *.
    subst r1. simpl.
    destruct (text_to_speech_base64 stt_error_response e1) as [r2 e2]. simpl.
    unfold with_env, logged. simpl. rewrite <- app_assoc. simpl.
    by destruct r2. }
  rewrite Hrun. simpl. repeat split.
  intros c stream error_audio Hsid Hstream Hname Hsynth Haudio Hsend.
  unfold Voice.run_turn, Voice.run_pipeline, bind, attempt, ret.
  rewrite Hsid, Hstream, Hrun. simpl. rewrite Hsynth, Haudio, Hname. simpl.
  unfold Voice.send, call_out. simpl.
  destruct (send_audio stream error_audio _) as [r3 e3]. simpl in *.
  by subst r3.
Qed.

(** C10.  For a call identifier without a session, [process_customer_audio]
    returns the pair of empty strings and leaves everything as it was: no
    session is created or changed and no collaborator is called.
    [process_customer_text] instead stores a fresh session under the
    identifier and runs the conversation engine on its empty history: it
    returns the engine's response, the stored session holds the history the
    engine returned, and the calls made are those of the engine followed by
    the synthesis of the response. *)
Theorem unknown_call_audio_and_text (sid : string) (audio : list Byte.byte)
  (text : string) (st : State Ext) :
  active_sessions st !! sid = None ->
  process_customer_audio sid audio st = (Returned (EmptyString, EmptyString), st)
  /\ let turn := LLMAgent.chat [] text sid (env st) in
     let fresh := new_session sid None (utcnow (ext (env st))) in
     let speech := text_to_speech_base64 turn.1.1.1 (ext turn.2) in
     let r := process_customer_text sid text st in
     r.1 = Returned (turn.1.1.1,
                     match speech.1 with
                     | Returned a => a
                     | Raised _ => EmptyString
                     end)
     /\ active_sessions r.2
        = <[sid := with_history turn.1.1.2 fresh]> (active_sessions st)
     /\ calls (env r.2)
        = calls (env st) ++ LLMAgent.turn_calls [] text sid (env st)
          ++ [TtsCall turn.1.1.1 speech.1].
Proof.
  intros Hnone. split.
  - unfold process_customer_audio, bind, get_session, gets, ret.
    by rewrite Hnone.
  - cbv zeta.
    destruct (chat_log [] text sid (env st))
      as (resp & hist & e' & Hrun & _ & _).
    unfold process_customer_text, bind, get_session, gets, ret, store_session,
      set_history, modify, converse, attempt, tts, call_out.
    rewrite Hnone. simpl. rewrite Hrun. simpl.
    destruct (text_to_speech_base64 resp e') as [r2 e2]. simpl.
    rewrite alter_insert_eq, <- app_assoc.
    by destruct r2.
Qed.

End OrchestratorFacts.

(** Concrete runs of the turn pipeline. *)

Section OrchestratorRuns.

Import CallOrchestrator.

(** C9 with transcription down and synthesis up: the fallback phrase and its
    audio are returned, the store is as it was, and the only calls are the
    transcription and the synthesis of the fallback phrase. *)
Lemma transcription_failure_witness :
  (process_customer_audio "CA1" quiet_frame (one_call stt_down)).1
  = Returned (stt_error_response, ("audio:" ++ stt_error_response)%string)
  /\ active_sessions (process_customer_audio "CA1" quiet_frame (one_call stt_down)).2
     = active_sessions (one_call stt_down)
  /\ calls (env (process_customer_audio "CA1" quiet_frame (one_call stt_down)).2)
     = [SttCall quiet_frame (Raised "transcription unavailable");
        TtsCall stt_error_response
          (Returned ("audio:" ++ stt_error_response)%string)].
Proof.
  destruct (transcription_failure "CA1" quiet_frame (one_call stt_down)
              greeted_session "transcription unavailable")
    as (Hret & Hstore & Hcalls & _); [reflexivity|reflexivity|].
  split; [exact Hret|]. split; [exact Hstore|exact Hcalls].
Defined.

(** C9 as stated fails when synthesis is down as well: the session is
    active and transcription raises, yet nothing is returned; the exception of
    the synthesis is passed on. *)
Lemma transcription_failure_counterexample :
  active_sessions (one_call voice_down) !! "CA1"%string = Some greeted_session
  /\ (speech_to_text quiet_frame (ext (env (one_call voice_down)))).1
     = Raised "transcription unavailable"
  /\ (process_customer_audio "CA1" quiet_frame (one_call voice_down)).1
     = Raised "synthesis unavailable".
Proof. repeat split; reflexivity. Qed.

(** C10 on an empty store: the audio entry point returns two empty strings
    and changes nothing; the text entry point leaves a session for the
    identifier, holding the two entries of the exchange. *)
Lemma unknown_call_audio_and_text_witness :
  process_customer_audio "CA7" quiet_frame (no_call tools_then_text)
  = (Returned (EmptyString, EmptyString), no_call tools_then_text)
  /\ (process_customer_text "CA7" "How much is a haircut?" (no_call tools_then_text)).1
     = Returned ("A women's haircut is $85."%string,
                 "audio:A women's haircut is $85."%string)
  /\ conversation_history
       <$> active_sessions
             (process_customer_text "CA7" "How much is a haircut?"
                (no_call tools_then_text)).2 !! "CA7"%string
     = Some [user_message_of "How much is a haircut?";
             assistant_message_of "A women's haircut is $85."].
Proof.
  destruct (unknown_call_audio_and_text "CA7" quiet_frame "How much is a haircut?"
              (no_call tools_then_text))
    as (Haudio & Htext & Hstore & _); [reflexivity|].
  split; [exact Haudio|]. split; [exact Htext|].
  rewrite Hstore. reflexivity.
Defined.

End OrchestratorRuns.

(** ** A whole call

    The handler, the pipeline and the engine together on [one_utterance]:
    the frame that arrives during the greeting is dropped; one utterance, the
    loud frame and the first thirty quiet ones, reaches transcription; the
    session then holds the greeting and the exchange; the segmenter is left
    suppressed until the playback of the answer is acknowledged. *)

Section WholeCall.

Import CallOrchestrator.

Example one_utterance_call :
  let r := Voice.serve Voice.ulaw_rms one_utterance Voice.initial
             (no_call haircut_question) in
  (Voice.seg <$> match r.1 with Returned c => Some c | Raised _ => None end)
  = Some Voice.handed_over
  /\ transcribed (calls (env r.2))
     = [concat (loud_frame :: replicate 30 quiet_frame)]
  /\ conversation_history <$> active_sessions r.2 !! "CA1"%string
     = Some [assistant_message_of "Welcome! How can I help you today?";
             user_message_of "How much is a haircut?";
             assistant_message_of "A women's haircut is $85."].
Proof. repeat split; by vm_compute. Qed.

End WholeCall.

(** ** Calendar slot search: the sweep in general *)

Section SweepFacts.

Import CalendarService.

(** [first_conflict] answers [None] exactly when the candidate overlaps no
    busy period. *)
Lemma first_conflict_None current slot_end busy :
  first_conflict current slot_end busy = None
  <-> Forall (fun p => ~ (current < p.2 /\ slot_end > p.1)) busy.
Proof.
  split; [|apply first_conflict_none].
  induction busy as [|[bs be] rest IH]; simpl; [by constructor|].
  destruct (bool_decide (current < be)) eqn:E1;
    destruct (bool_decide (slot_end > bs)) eqn:E2; simpl; try done.
  all: intros Hrest; constructor; [|by apply IH].
  all: simpl; intros [Hlt Hgt].
  - by apply bool_decide_eq_false in E2.
  - by apply bool_decide_eq_false in E1.
  - by apply bool_decide_eq_false in E1.
Qed.

(** Induction along the loop: a property of the candidate and of the rest of
    the run that holds when the loop stops and is kept by both branches holds
    of every run. *)
Lemma sweep_run_ind date duration busy (P : instant -> list iteration -> Prop) :
  (forall c, c + duration > day_end -> P c []) ->
  (forall c busy_end,
      c + duration <= day_end ->
      first_conflict c (c + duration) busy = Some busy_end ->
      c < busy_end ->
      P busy_end (sweep date duration busy busy_end) ->
      P c ((c, None) :: sweep date duration busy busy_end)) ->
  (forall c,
      c + duration <= day_end ->
      first_conflict c (c + duration) busy = None ->
      P (c + minutes 30) (sweep date duration busy (c + minutes 30)) ->
      P c ((c, Some {| start_time := strftime_HM c;
                       end_time := strftime_HM (c + duration);
                       date := date |})
           :: sweep date duration busy (c + minutes 30))) ->
  forall c, P c (sweep date duration busy c).
Proof.
  intros Hstop Hjump Hemit c.
  remember (Z.to_nat (day_end - duration - c + 1)) as n eqn:Hn.
  revert c Hn. induction (lt_wf n) as [n _ IH]. intros c ->.
  destruct (Z_le_gt_dec (c + duration) day_end) as [Hle|Hgt].
  - destruct (first_conflict c (c + duration) busy) as [be|] eqn:Hc.
    + pose proof (first_conflict_later _ _ _ _ Hc) as Hlater.
      rewrite (sweep_jump _ _ _ _ be) by done.
      apply Hjump; try done.
      apply (IH (Z.to_nat (day_end - duration - be + 1))); [lia|done].
    + rewrite sweep_emit by done.
      apply Hemit; try done.
      apply (IH (Z.to_nat (day_end - duration - (c + minutes 30) + 1)));
        [unfold minutes; lia|done].
  - rewrite sweep_done by done. by apply Hstop.
Qed.

(** Every slot of a run belongs to a candidate that is not before the start
    of the run, fits before the close, and overlaps no busy period. *)
Lemma sweep_emitted date duration busy c0 c s :
  In (c, Some s) (sweep date duration busy c0) ->
  c0 <= c /\ c + duration <= day_end
  /\ first_conflict c (c + duration) busy = None
  /\ s = {| start_time := strftime_HM c;
            end_time := strftime_HM (c + duration);
            date := date |}.
Proof.
  revert c0.
  apply (sweep_run_ind date duration busy
           (fun c0 its => In (c, Some s) its -> c0 <= c /\ _)).
  - intros c0 _ [].
  - intros c0 be Hle Hc Hlater IH [[=]|Hin].
    destruct (IH Hin) as (? & ?). split; [lia|done].
  - intros c0 Hle Hc IH [[= <- <-]|Hin]; [done|].
    destruct (IH Hin) as (? & ?). split; [unfold minutes in *; lia|done].
Qed.

Lemma find_slots_In date dm busy s :
  In s (find_slots date dm busy)
  <-> exists c, In (c, Some s) (sweep date (minutes dm) busy day_start).
Proof.
  unfold find_slots. rewrite <- list_elem_of_In, list_elem_of_omap.
  split.
  - intros ([c o] & Hin & Ho). simpl in Ho. subst o.
    exists c. by apply list_elem_of_In.
  - intros (c & Hin). exists (c, Some s). by rewrite list_elem_of_In.
Qed.


(** The busy periods of the events the sweep takes into account. *)
Lemma get_available_slots_busy lower_in date dm stylist events :
  exists kept,
    get_available_slots lower_in date dm stylist (Returned events)
    = find_slots date dm (map (fun e => (ev_start e, ev_end e)) kept)
    /\ forall e, In e kept
        <-> In e events
            /\ match stylist with
               | Some name => name = EmptyString
                              \/ mentions lower_in name e = true
               | None => True
               end.
Proof.
  unfold get_available_slots. destruct stylist as [name|].
  - case_bool_decide as Hname.
    + exists events. split; [done|]. intros e. tauto.
    + exists (filter (fun e => Is_true (mentions lower_in name e)) events).
      split; [done|]. intros e.
      rewrite <- !list_elem_of_In, list_elem_of_filter, Is_true_true.
      tauto.
  - exists events. split; [done|]. intros e. tauto.
Qed.


(** X2.  Every returned slot starts at or after 09:00 and ends at or before
    19:00; so a duration of more than 600 minutes gives no slot at all. *)
Theorem available_slots_within_hours (lower_in : string -> string -> bool)
  (date : string) (dm : Z) (stylist : option string) (events : list event) :
  (forall s,
     In s (get_available_slots lower_in date dm stylist (Returned events)) ->
     exists c,
       s = {| start_time := strftime_HM c;
              end_time := strftime_HM (c + minutes dm);
              date := date |}
       /\ day_start <= c /\ c + minutes dm <= day_end)
  /\ (600 < dm ->
      get_available_slots lower_in date dm stylist (Returned events) = []).
Proof.
  destruct (get_available_slots_busy lower_in date dm stylist events)
    as (kept & -> & _).
  split.
  - intros s (c & Hin)%find_slots_In.
    apply sweep_emitted in Hin as (? & ? & _ & ->). by exists c.
  - intros Hlong. unfold find_slots. rewrite sweep_done; [done|].
    unfold minutes, day_start, day_end. lia.
Qed.

Lemma slot_starts_cons_none c its :
  slot_starts ((c, None) :: its) = slot_starts its.
Proof. done. Qed.

Lemma slot_starts_cons_some c s its :
  slot_starts ((c, Some s) :: its) = c :: slot_starts its.
Proof. done. Qed.

(** The slot starts of a run are not before its first candidate and are at
    least 30 minutes apart, in increasing order. *)
Lemma sweep_starts_apart date duration busy c0 :
  Forall (fun c => c0 <= c) (slot_starts (sweep date duration busy c0))
  /\ StronglySorted (fun a b => a + minutes 30 <= b)
       (slot_starts (sweep date duration busy c0)).
Proof.
  apply (sweep_run_ind date duration busy
           (fun c0 its =>
              Forall (fun c => c0 <= c) (slot_starts its)
              /\ StronglySorted (fun a b => a + minutes 30 <= b)
                   (slot_starts its))).
  - intros c _. split; constructor.
  - intros c be _ _ Hlater [Hge Hsorted]. rewrite slot_starts_cons_none.
    split; [|done]. eapply Forall_impl; [exact Hge|]. simpl. lia.
  - intros c _ _ [Hge Hsorted]. rewrite slot_starts_cons_some.
    split.
    + constructor; [lia|]. eapply Forall_impl; [exact Hge|].
      simpl. unfold minutes. lia.
    + by constructor.
Qed.

(** The returned slots are the rendering of the slot starts. *)
Lemma find_slots_starts date dm busy :
  find_slots date dm busy
  = map (fun c => {| start_time := strftime_HM c;
                     end_time := strftime_HM (c + minutes dm);
                     date := date |})
        (slot_starts (sweep date (minutes dm) busy day_start))
  /\ StronglySorted (fun a b => a + minutes 30 <= b)
       (slot_starts (sweep date (minutes dm) busy day_start)).
Proof.
  split; [|apply sweep_starts_apart].
  unfold find_slots.
  apply (sweep_run_ind date (minutes dm) busy
           (fun _ its =>
              omap snd its
              = map (fun c => {| start_time := strftime_HM c;
                                 end_time := strftime_HM (c + minutes dm);
                                 date := date |}) (slot_starts its))).
  - done.
  - intros c be _ _ _ IH. by rewrite slot_starts_cons_none.
  - intros c _ _ IH. rewrite slot_starts_cons_some. simpl. by rewrite <- IH.
Qed.


(** Two-digit fields determine their number; a rendering determines the
    minute of the day. *)
Lemma digit_inj a b :
  0 <= a < 10 -> 0 <= b < 10 -> digit a = digit b -> a = b.
Proof.
  intros Ha Hb Heq. unfold digit in Heq.
  apply (f_equal N_of_ascii) in Heq.
  rewrite !N_ascii_embedding in Heq by lia. lia.
Qed.

Lemma two_digits_inj n m :
  0 <= n < 100 -> 0 <= m < 100 -> two_digits n = two_digits m -> n = m.
Proof.
  intros Hn Hm [= H1 H2].
  apply digit_inj in H1; [|Z.div_mod_to_equations; lia..].
  apply digit_inj in H2; [|Z.div_mod_to_equations; lia..].
  Z.div_mod_to_equations. lia.
Qed.

Lemma strftime_HM_minute t1 t2 :
  0 <= t1 < 86400 -> 0 <= t2 < 86400 ->
  strftime_HM t1 = strftime_HM t2 -> t1 / 60 = t2 / 60.
Proof.
  intros H1 H2 Heq. unfold strftime_HM in Heq. simpl in Heq.
  injection Heq as Ha Hb Hc Hd.
  assert (Hh : (t1 / 3600) mod 24 = (t2 / 3600) mod 24).
  { apply two_digits_inj; [Z.div_mod_to_equations; lia..|].
    unfold two_digits. by rewrite Ha, Hb. }
  assert (Hm : (t1 / 60) mod 60 = (t2 / 60) mod 60).
  { apply two_digits_inj; [Z.div_mod_to_equations; lia..|].
    unfold two_digits. by rewrite Hc, Hd. }
  clear Ha Hb Hc Hd. Z.div_mod_to_equations. lia.
Qed.

Lemma strftime_HM_NoDup starts :
  StronglySorted (fun a b => a + minutes 30 <= b) starts ->
  Forall (fun c => 0 <= c < 86400) starts ->
  NoDup (map strftime_HM starts).
Proof.
  induction 1 as [|a rest Hsorted IH Hfar]; intros Hrange; [constructor|].
  apply Forall_cons_1 in Hrange as [Ha Hrest]. simpl.
  constructor; [|by apply IH].
  intros (b & Heq & Hb)%list_elem_of_fmap.
  rewrite Forall_forall in Hfar, Hrest.
  specialize (Hfar b Hb). specialize (Hrest b Hb). simpl in Hfar, Hrest.
  apply strftime_HM_minute in Heq; [|done..].
  unfold minutes in Hfar. Z.div_mod_to_equations. lia.
Qed.

(** X4.  For a duration that is not negative, no two returned slots carry
    the same start time. *)
Theorem available_slots_distinct_starts (date : string) (dm : Z)
  (busy : list (instant * instant)) :
  0 <= dm ->
  NoDup (map start_time (find_slots date dm busy)).
Proof.
  intros Hdm.
  destruct (find_slots_starts date dm busy) as [-> Hsorted].
  rewrite <- list_fmap_compose.
  apply strftime_HM_NoDup; [done|].
  apply Forall_forall. intros c Hc.
  apply list_elem_of_omap in Hc as ([c' [s|]] & Hin & Hsome); [|done].
  simpl in Hsome. injection Hsome as ->.
  apply list_elem_of_In, sweep_emitted in Hin as (Hlo & Hhi & _).
  unfold day_start, day_end, minutes in *. lia.
Qed.


(** A conflict is with a busy period of the list that the candidate
    overlaps. *)
Lemma first_conflict_Some current slot_end busy busy_end :
  first_conflict current slot_end busy = Some busy_end ->
  exists busy_start,
    In (busy_start, busy_end) busy
    /\ current < busy_end /\ slot_end > busy_start.
Proof.
  induction busy as [|[bs be] rest IH]; simpl; [done|].
  destruct (bool_decide (current < be)) eqn:E1;
    destruct (bool_decide (slot_end > bs)) eqn:E2; simpl.
  1: { intros [= <-]. apply bool_decide_eq_true in E1, E2. eauto. }
  all: intros (b & ? & ?)%IH; eauto.
Qed.

(** Busy periods that lie outside the business window change nothing. *)
Lemma sweep_outside_window date duration busy :
  Forall (fun p => p.2 <= day_start \/ day_end <= p.1) busy ->
  forall c, day_start <= c ->
  sweep date duration busy c = sweep date duration [] c.
Proof.
  intros Hout.
  apply (sweep_run_ind date duration busy
           (fun c its => day_start <= c -> its = sweep date duration [] c)).
  - intros c Hgt _. by rewrite sweep_done.
  - intros c be Hle Hc _ _ Hc0.
    apply first_conflict_Some in Hc as (bs & Hin & Hlt & Hgt).
    rewrite Forall_forall in Hout.
    apply list_elem_of_In, Hout in Hin. simpl in Hin. lia.
  - intros c Hle Hc IH Hc0.
    rewrite (sweep_emit _ _ [] c) by done.
    rewrite IH; [done|]. unfold minutes. lia.
Qed.

(** X5.  Events that end by 09:00 or start at 19:00 or later do not affect
    the answer: with only such events the slots are those of the empty
    calendar. *)
Theorem events_outside_hours_ignored (lower_in : string -> string -> bool)
  (date : string) (dm : Z) (stylist : option string) (events : list event) :
  (forall e, In e events -> ev_end e <= day_start \/ day_end <= ev_start e) ->
  get_available_slots lower_in date dm stylist (Returned events)
  = get_available_slots lower_in date dm stylist (Returned []).
Proof.
  intros Hout.
  destruct (get_available_slots_busy lower_in date dm stylist events)
    as (kept & -> & Hkept).
  destruct (get_available_slots_busy lower_in date dm stylist [])
    as (none & -> & Hnone).
  assert (none = []) as ->.
  { destruct none as [|e ?]; [done|]. destruct (Hnone e) as [[[] _] _]. by left. }
  unfold find_slots. rewrite sweep_outside_window; [done| |done].
  apply Forall_forall. intros [bs be] (e & [= -> ->] & He)%list_elem_of_fmap.
  simpl. apply Hout, Hkept. by apply list_elem_of_In.
Qed.

(** X6.  When one of the events taken into account covers the whole window
    from 09:00 to 19:00, no slot of positive duration is returned. *)
Theorem fully_booked_day (lower_in : string -> string -> bool)
  (date : string) (dm : Z) (stylist : option string) (events : list event)
  (e : event) :
  0 < dm ->
  In e events ->
  match stylist with
  | Some name => name = EmptyString \/ mentions lower_in name e = true
  | None => True
  end ->
  ev_start e <= day_start ->
  day_end <= ev_end e ->
  get_available_slots lower_in date dm stylist (Returned events) = [].
Proof.
  intros Hdm He Hpass Hstart Hend.
  destruct (get_available_slots_busy lower_in date dm stylist events)
    as (kept & Heq & Hkept).
  destruct (get_available_slots lower_in date dm stylist (Returned events))
    as [|s rest] eqn:Hslots; [done|exfalso].
  assert (Hin : In s (find_slots date dm (map (fun e => (ev_start e, ev_end e)) kept))).
  { rewrite <- Heq. by left. }
  apply find_slots_In in Hin as (c & Hin).
  apply sweep_emitted in Hin as (Hlo & Hhi & Hfree & _).
  apply first_conflict_None in Hfree. rewrite Forall_forall in Hfree.
  apply (Hfree (ev_start e, ev_end e)).
  - apply list_elem_of_fmap. exists e. split; [done|].
    apply list_elem_of_In, Hkept. done.
  - simpl. unfold minutes in *. lia.
Qed.

End SweepFacts.

(** Concrete runs of the slot search. *)

Section SweepRuns.

Import CalendarService.


(** X2 on the same calendar: the slot 18:00-19:00 lies within the hours, and
    an eleven-hour appointment finds no slot. *)
Lemma available_slots_within_hours_witness :
  (exists c,
     {| start_time := "18:00"; end_time := "19:00"; date := "2026-03-15" |}
     = {| start_time := strftime_HM c;
          end_time := strftime_HM (c + minutes 60);
          date := "2026-03-15" |}
     /\ day_start <= c /\ c + minutes 60 <= day_end)
  /\ get_available_slots (fun _ _ => false) "2026-03-15" 660 None
       (Returned [morning_appointment]) = [].
Proof.
  split.
  - apply (proj1 (available_slots_within_hours (fun _ _ => false) "2026-03-15"
                    60 None [morning_appointment])).
    vm_compute. tauto.
  - apply (proj2 (available_slots_within_hours (fun _ _ => false) "2026-03-15"
                    660 None [morning_appointment])).
    lia.
Defined.

Lemma available_slots_distinct_starts_witness :
  NoDup (map start_time (find_slots "2026-03-15" 45 [(36000, 39600)])).
Proof.
  apply (available_slots_distinct_starts "2026-03-15" 45 [(36000, 39600)]).
  lia.
Defined.

(** X5 with an early-morning and an evening event. *)
Lemma events_outside_hours_ignored_witness :
  get_available_slots (fun _ _ => false) "2026-03-15" 60 None
    (Returned [early_event; evening_event])
  = get_available_slots (fun _ _ => false) "2026-03-15" 60 None (Returned []).
Proof.
  apply (events_outside_hours_ignored (fun _ _ => false) "2026-03-15" 60 None
           [early_event; evening_event]).
  intros e [<-|[<-|[]]]; [left|right]; vm_compute; discriminate.
Defined.

(** X6 with a closure from 08:00 to 20:00. *)
Lemma fully_booked_day_witness :
  get_available_slots (fun _ _ => false) "2026-03-15" 30 None
    (Returned [morning_appointment; closed_all_day]) = [].
Proof.
  apply (fully_booked_day (fun _ _ => false) "2026-03-15" 30 None
           [morning_appointment; closed_all_day] closed_all_day).
  - lia.
  - right. by left.
  - exact I.
  - vm_compute. discriminate.
  - vm_compute. discriminate.
Defined.

End SweepRuns.

(** ** Appointment lookup *)

Section LookupFacts.

Import CalendarService.

Variable lower : string -> string.

Lemma collect_matches_no_term events found :
  collect_matches lower EmptyString events found = Returned found.
Proof. revert found. induction events as [|ev rest IH]; intros found; simpl; done. Qed.

(** X7.  A lookup without a usable search term, that is with no name and no
    phone or with empty ones, returns no appointment whatever the calendar
    holds; and a non-empty name is the search term, the phone being then
    ignored. *)
Theorem find_appointment_search_term (customer_name customer_phone : option string)
  (events_result : Exc (list item)) :
  lower EmptyString = EmptyString ->
  (or_else customer_name customer_phone = None
   \/ or_else customer_name customer_phone = Some EmptyString ->
   find_appointment lower customer_name customer_phone events_result = Returned [])
  /\ (forall name,
        customer_name = Some name -> name <> EmptyString ->
        find_appointment lower customer_name customer_phone events_result
        = find_appointment lower customer_name None events_result).
Proof.
  intros Hlower. split.
  - intros Hnone. unfold find_appointment, search_term_of.
    destruct events_result as [e|events]; [done|].
    destruct Hnone as [-> | ->]; simpl; rewrite Hlower;
      apply collect_matches_no_term.
  - intros name -> Hname. unfold find_appointment, search_term_of.
    by destruct name.
Qed.

(** The loop on events that all have their keys when they match: the
    matches, in calendar order, after what was found before. *)
Lemma collect_matches_complete term events found :
  Forall (fun ev => matches lower term ev = true ->
                    returned_value (match_of ev) <> None) events ->
  collect_matches lower term events found
  = Returned (found ++ omap (match_if lower term) events).
Proof.
  intros Hall. revert found.
  induction Hall as [|ev rest Hev _ IH]; intros found; simpl.
  - by rewrite app_nil_r.
  - unfold match_if at 1. destruct (matches lower term ev) eqn:Hm.
    + destruct (match_of ev) as [e|m]; [by destruct Hev|].
      simpl. rewrite IH, <- app_assoc. done.
    + apply IH.
Qed.

(** X8.  The lookup reads [id], [start] and [end] only of the events that
    match.  When every matching event has them, it returns the matches in
    calendar order, whatever keys the other events lack; when a matching event
    lacks one of them, it raises. *)
Theorem find_appointment_missing_keys (customer_name customer_phone : option string)
  (events : list item) :
  let term := search_term_of lower customer_name customer_phone in
  (Forall (fun ev => matches lower term ev = true ->
                     returned_value (match_of ev) <> None) events ->
   find_appointment lower customer_name customer_phone (Returned events)
   = Returned (omap (match_if lower term) events))
  /\ (Exists (fun ev => matches lower term ev = true
                        /\ returned_value (match_of ev) = None) events ->
      exists e,
        find_appointment lower customer_name customer_phone (Returned events)
        = Raised e).
Proof.
  cbv zeta. split.
  - intros Hall. unfold find_appointment.
    by rewrite collect_matches_complete.
  - unfold find_appointment.
    generalize (@nil appointment) as found.
    induction events as [|ev rest IH]; intros found Hex.
    + by apply Exists_nil in Hex.
    + simpl. destruct (matches lower (search_term_of lower customer_name customer_phone) ev) eqn:Hm.
      * destruct (match_of ev) as [e|m] eqn:Hmatch; [by eexists|].
        apply Exists_cons in Hex as [[_ Hnone]|Hex]; [|by apply IH].
        by rewrite Hmatch in Hnone.
      * apply Exists_cons in Hex as [[Htrue _]|Hex]; [congruence|by apply IH].
Qed.

End LookupFacts.

Section LookupRuns.

Import CalendarService.

(** X7: no name and an empty phone find nothing; with a name, the phone does
    not matter. *)
Lemma find_appointment_search_term_witness :
  find_appointment ascii_lower None (Some EmptyString) (Returned [jane_entry])
  = Returned []
  /\ find_appointment ascii_lower (Some "jane doe"%string) (Some "+1999"%string)
       (Returned [jane_entry])
     = find_appointment ascii_lower (Some "jane doe"%string) None
         (Returned [jane_entry]).
Proof.
  destruct (find_appointment_search_term ascii_lower None (Some EmptyString)
              (Returned [jane_entry])) as [Hnone _]; [reflexivity|].
  destruct (find_appointment_search_term ascii_lower (Some "jane doe"%string)
              (Some "+1999"%string) (Returned [jane_entry])) as [_ Hname];
    [reflexivity|].
  split; [apply Hnone; by right|].
  by apply (Hname "jane doe"%string).
Defined.

(** X8: an entry of another customer without [id] does not disturb the
    lookup of Jane; an entry of Jane without [id] makes it raise. *)
Lemma find_appointment_missing_keys_witness :
  find_appointment ascii_lower (Some "Jane Doe"%string) None
    (Returned [other_entry_without_id; jane_entry])
  = Returned [ {| event_id := "event456";
                  appt_summary := "Haircut - Jane Doe";
                  appt_description := "Customer: Jane Doe, Phone: +15551234567";
                  appt_start := Some "2026-03-20T14:00:00Z"%string;
                  appt_end := Some "2026-03-20T15:00:00Z"%string |} ]
  /\ exists e,
       find_appointment ascii_lower (Some "Jane Doe"%string) None
         (Returned [jane_entry; jane_entry_without_id]) = Raised e.
Proof.
  split.
  - rewrite (proj1 (find_appointment_missing_keys ascii_lower
                      (Some "Jane Doe"%string) None
                      [other_entry_without_id; jane_entry])); [reflexivity|].
    apply (bool_decide_unpack _). by vm_compute.
  - apply (proj2 (find_appointment_missing_keys ascii_lower
                    (Some "Jane Doe"%string) None
                    [jane_entry; jane_entry_without_id])).
    apply Exists_cons_tl, Exists_cons_hd. by vm_compute.
Defined.

End LookupRuns.

(** ** Conversation engine: bounds and protocol *)

Section EngineFacts.

Import LLMAgent.

Context {Ext : Type} `{Collaborators Ext}.

Lemma trim_history_length h :
  (length (trim_history h) <= Nat.min (length h) 40)%nat.
Proof.
  unfold trim_history, MAX_HISTORY. case_bool_decide; [|lia].
  rewrite length_app, length_take, length_drop. lia.
Qed.

Lemma turn_log_history hist text rounds log resp h :
  turn_log hist text rounds log resp h ->
  (length h <= length hist + 2)%nat.
Proof. induction 1; rewrite ?length_app; simpl; lia. Qed.

(** X9.  Whatever the backend does, the history [chat] returns has at most
    two entries more than the first 40 of its input: at most 42 entries. *)
Theorem chat_history_bounded (h : list message) (text sid : string)
  (env : Env Ext) :
  (length (chat h text sid env).1.1.2 <= Nat.min (length h) 40 + 2)%nat.
Proof.
  destruct (chat_log h text sid env) as (resp & hist & e' & Hrun & Hshape & _).
  rewrite Hrun. simpl.
  apply turn_log_history in Hshape.
  pose proof (trim_history_length h). lia.
Qed.

Lemma turn_log_only_llm_and_tools hist text rounds log resp h :
  turn_log hist text rounds log resp h ->
  Forall (fun c => match c with
                   | LlmCall _ _ | ToolCall _ _ _ => True
                   | _ => False
                   end) log.
Proof.
  induction 1 as [| | | rounds msgs choice tlog rest resp h _ Htl _ _ IH];
    repeat constructor.
  apply Forall_app. split; [|done].
  apply Forall_forall. intros c Hc.
  rewrite forallb_forall in Htl. apply list_elem_of_In, Htl in Hc.
  by destruct c.
Qed.

(** X10.  However the turn ends, by a final answer, a backend error or the
    exhausted budget, the tools list [chat] returns names exactly the tools
    dispatched during the turn, in order, which are the tools the backend
    asked for; [chat] only appends to the log, and only backend invocations
    and tool dispatches. *)
Theorem chat_tools_called (h : list message) (text sid : string)
  (env : Env Ext) :
  (chat h text sid env).1.2 = tool_names (turn_calls h text sid env)
  /\ tool_names (turn_calls h text sid env)
     = requested_names (llm_outcomes (turn_calls h text sid env))
  /\ calls (chat h text sid env).2 = calls env ++ turn_calls h text sid env
  /\ Forall (fun c => match c with
                      | LlmCall _ _ | ToolCall _ _ _ => True
                      | _ => False
                      end) (turn_calls h text sid env).
Proof.
  destruct (chat_log h text sid env) as (resp & hist & e' & Hrun & Hshape & _).
  rewrite Hrun. simpl. repeat split.
  - by apply turn_log_names in Hshape.
  - by apply turn_log_only_llm_and_tools in Hshape.
Qed.

Lemma run_tool_calls_dispatched tcs messages tools env :
  exists results log e',
    run_tool_calls tcs messages tools env
    = (messages ++ results, tools ++ map fn_name tcs,
       {| ext := e'; calls := calls env ++ log |})
    /\ dispatched tcs log results.
Proof.
  revert messages tools env.
  induction tcs as [|tc rest IH]; intros messages tools env; simpl.
  - exists [], [], (ext env). rewrite !app_nil_r.
    split; [by destruct env|constructor].
  - unfold execute_tool.
    destruct (dispatch_tool (fn_name tc) (fn_arguments tc) (ext env)) as [r e'] eqn:E.
    destruct (IH (messages ++ [ToolResult (tc_id tc) r]) (tools ++ [fn_name tc])
                 (logged env e' (ToolCall (fn_name tc) (fn_arguments tc) r)))
      as (results & log & e2 & Heq & Hd).
    exists (ToolResult (tc_id tc) r :: results),
           (ToolCall (fn_name tc) (fn_arguments tc) r :: log), e2.
    rewrite Heq. simpl. rewrite <- !app_assoc. simpl.
    split; [done|by constructor].
Qed.

Lemma chat_rounds_requests rounds hist text messages tools env :
  exists log,
    calls (chat_rounds rounds hist text messages tools env).2 = calls env ++ log
    /\ requests_from messages log.
Proof.
  revert messages tools env.
  induction rounds as [|rounds IH]; intros messages tools env; simpl.
  - exists []. rewrite app_nil_r. split; [done|constructor].
  - unfold create_completion.
    destruct (completions_create messages (ext env)) as [r e'] eqn:E.
    destruct r as [err|choice].
    + exists [LlmCall messages (Raised err)]. split; [done|by constructor].
    + destruct (tool_calls choice) as [|tc tcs] eqn:Etc.
      * exists [LlmCall messages (Returned choice)]. split; [done|].
        constructor. simpl. by rewrite Etc.
      * rewrite <- Etc.
        destruct (run_tool_calls_dispatched (tool_calls choice)
                    (messages ++ [AssistantToolCalls choice]) tools
                    (logged env e' (LlmCall messages (Returned choice))))
          as (results & tlog & e1 & Heq & Hd).
        rewrite Heq.
        match goal with
        | |- context [chat_rounds rounds hist text ?m ?t ?v] =>
            destruct (IH m t v) as (log & Hcalls & Hreq)
        end.
        exists (LlmCall messages (Returned choice) :: tlog ++ log).
        rewrite Hcalls. simpl. rewrite <- !app_assoc. simpl.
        split; [done|].
        rewrite <- app_assoc in Hreq. simpl in Hreq.
        apply (requests_round _ _ _ results); [by rewrite Etc|done|done].
Qed.

(** X11.  The first backend request of a turn carries the system message,
    the trimmed history and the new user message; after every tool round the
    next request carries the previous messages followed by the assistant's
    tool-invocation record and one tool-result record per invocation, in the
    order of the invocations, each tagged with the invocation's id and holding
    the result of the dispatch made with that invocation's name and
    arguments. *)
Theorem chat_request_protocol (h : list message) (text sid : string)
  (env : Env Ext) :
  requests_from
    ([build_system_message env] ++ trim_history h ++ [user_message_of text])
    (turn_calls h text sid env).
Proof.
  unfold turn_calls, chat.
  match goal with
  | |- context [chat_rounds ?n ?hh ?t ?m ?tl ?v] =>
      destruct (chat_rounds_requests n hh t m tl v) as (log & Hcalls & Hreq)
  end.
  rewrite Hcalls, drop_app_length. exact Hreq.
Qed.

End EngineFacts.

(** ** Tool dispatcher *)

Section DispatcherFacts.

Import ToolDispatcher.

Context {Ext : Type} `{ToolServices Ext}.

Variable dumps : json -> string.
Variable not_subscriptable : json -> string.
Variable no_get : json -> string.
Variable str_of : json -> string.


(** Case analysis on the next result the dispatcher inspects. *)
Ltac next_case :=
  match goal with
  | |- context [match ?x with _ => _ end] =>
      lazymatch x with
      | context [match _ with _ => _ end] => fail
      | _ => destruct x eqn:?
      end
  | H : context [match ?x with _ => _ end] |- _ =>
      lazymatch x with
      | context [match _ with _ => _ end] => fail
      | _ => destruct x eqn:?
      end
  end.

Ltac run_dispatch :=
  unfold new_calls, _execute_tool, dispatch in *;
  repeat case_bool_decide; subst;
  unfold bind, pure, call, ret, getitem, get in *; simpl in *;
  repeat (next_case; simpl in *; try simplify_eq);
  rewrite <- ?app_assoc, ?drop_app_length, ?app_nil_r in *;
  rewrite ?drop_ge in * by done;
  simpl in *.

(** X12.  [check_availability] hands back at most five slots, the first five
    the calendar returned, together with the count of all of them, and the
    [no_slots] payload when the calendar returned none; the calendar is asked
    once, with a duration of 60 minutes and no stylist unless the arguments
    say otherwise. *)
Theorem check_availability_capped (items : list (string * json)) (date : json)
  (result : list json) (e' : Ext) (st : Backend Ext) :
  assoc "date" items = Some date ->
  get_available_slots date
    (default (JNum 60) (assoc "duration_minutes" items))
    (default JNull (assoc "stylist" items)) (services st)
  = (Returned result, e') ->
  _execute_tool dumps not_subscriptable no_get str_of
    "check_availability" (JDict items) st
  = (dumps (match result with
            | [] => status "no_slots" [("message"%string, JStr no_slots_message)]
            | _ :: _ =>
                status "available"
                  [("slots"%string, JList (take 5 result));
                   ("total_available"%string, JNum (Z.of_nat (length result)))]
            end),
     {| services := e';
        service_calls :=
          service_calls st
          ++ [SlotsCall date
                (default (JNum 60) (assoc "duration_minutes" items))
                (default JNull (assoc "stylist" items))] |})
  /\ (length (take 5 result) <= 5)%nat.
Proof.
  intros Hdate Hslots. split; [|rewrite length_take; lia].
  unfold _execute_tool, dispatch. rewrite bool_decide_eq_true_2 by done.
  unfold bind, pure, call, ret, getitem, get. rewrite Hdate.
  destruct (assoc "duration_minutes" items), (assoc "stylist" items);
    simpl in *; rewrite Hslots; by destruct result.
Qed.

(** X13.  The dispatcher asks the calendar to create an event only for
    [book_appointment] and only when the arguments hold [service],
    [customer_name], [date], [start_time] and [customer_phone]; the request
    carries these values, and its title is the service and the customer name
    joined by a dash. *)
Theorem booking_needs_all_arguments (tool_name : string) (arguments : json)
  (st : Backend Ext) (request : booking) :
  In (CreateCall request)
     (new_calls dumps not_subscriptable no_get str_of tool_name arguments st) ->
  tool_name = "book_appointment"%string
  /\ exists items,
       arguments = JDict items
       /\ assoc "service" items = Some (service request)
       /\ assoc "customer_name" items = Some (customer_name request)
       /\ assoc "date" items = Some (date request)
       /\ assoc "start_time" items = Some (start_time request)
       /\ assoc "customer_phone" items = Some (customer_phone request)
       /\ summary request
          = (format str_of (service request) ++ " – "
             ++ format str_of (customer_name request))%string.
Proof.
  intros Hin. run_dispatch; try (by intuition discriminate).
  all: destruct Hin as [[= <-]|[[= <-]|[]]] || destruct Hin as [[= <-]|[]]
       || destruct Hin as [[=]|[[= <-]|[]]] || idtac.
  all: try (split; [done|eexists; repeat split; done]).
Qed.


Lemma default_duration_spec svc d :
  default_duration not_subscriptable svc = Returned d ->
  (truthy svc = false -> d = JNum 60)
  /\ (truthy svc = true ->
      exists fields,
        svc = Some (JDict fields)
        /\ assoc "duration_minutes" fields = Some d).
Proof.
  unfold default_duration. destruct svc as [v|]; [|by intros [= <-]].
  destruct (truthy (Some v)) eqn:Ht.
  - unfold getitem. destruct v as [| | | |?|fields]; try done.
    destruct (assoc "duration_minutes" fields) eqn:Ha; [|done].
    intros [= <-]. split; [done|]. eauto.
  - intros [= <-]. done.
Qed.

(** X14.  The duration of a booking is the [duration_minutes] argument when
    there is one; otherwise the duration the catalogue gives for the service,
    when the catalogue knows the service; otherwise 60 minutes. *)
Theorem booking_duration_resolution (tool_name : string) (arguments : json)
  (st : Backend Ext) (request : booking) :
  In (CreateCall request)
     (new_calls dumps not_subscriptable no_get str_of tool_name arguments st) ->
  exists items svc fallback,
    arguments = JDict items
    /\ (get_service_by_name (service request) (services st)).1 = Returned svc
    /\ duration_minutes request
       = default fallback (assoc "duration_minutes" items)
    /\ (truthy svc = false -> fallback = JNum 60)
    /\ (truthy svc = true ->
        exists fields,
          svc = Some (JDict fields)
          /\ assoc "duration_minutes" fields = Some fallback).
Proof.
  intros Hin. run_dispatch; try (by intuition discriminate).
  all: destruct Hin as [[= <-]|[[= <-]|[]]] || destruct Hin as [[= <-]|[]]
       || destruct Hin as [[=]|[[= <-]|[]]] || idtac.
  all: simpl.
  all: match goal with
       | Hs : get_service_by_name _ _ = (Returned ?svc, _),
         Hd : default_duration _ ?svc = Returned ?d |- _ =>
           exists items, svc, d; rewrite Hs;
           destruct (default_duration_spec _ _ Hd) as [Hno Hyes]
       end.
  all: match goal with
       | Ha : assoc "duration_minutes" _ = _ |- _ => rewrite Ha
       end.
  all: by repeat split.
Qed.

Lemma execute_appends tool_name arguments st :
  service_calls
    (_execute_tool dumps not_subscriptable no_get str_of tool_name arguments st).2
  = service_calls st
    ++ new_calls dumps not_subscriptable no_get str_of tool_name arguments st.
Proof. run_dispatch; by rewrite ?app_nil_r. Qed.

(** X15.  One dispatch only appends to the calls made to the services, makes
    at most two calls, and at most one of them changes the calendar; a tool
    name outside the catalogue makes no call and gives the
    [Unknown tool] error payload. *)
Theorem dispatch_call_bounds (tool_name : string) (arguments : json)
  (st : Backend Ext) :
  service_calls
    (_execute_tool dumps not_subscriptable no_get str_of tool_name arguments st).2
  = service_calls st
    ++ new_calls dumps not_subscriptable no_get str_of tool_name arguments st
  /\ (length (new_calls dumps not_subscriptable no_get str_of
                tool_name arguments st) <= 2)%nat
  /\ (length (filter (fun c => Is_true (changes_calendar c))
                (new_calls dumps not_subscriptable no_get str_of
                   tool_name arguments st)) <= 1)%nat
  /\ (~ In tool_name tool_catalogue ->
      _execute_tool dumps not_subscriptable no_get str_of tool_name arguments st
      = (dumps (JDict [("error"%string,
                        JStr ("Unknown tool: " ++ tool_name)%string)]), st)).
Proof.
  split; [apply execute_appends|].
  split; [|split].
  - run_dispatch; lia.
  - run_dispatch; rewrite ?filter_cons, ?filter_nil; repeat case_decide;
      simpl in *; try lia; tauto.
  - intros Hout. unfold tool_catalogue in Hout. simpl in Hout.
    unfold _execute_tool, dispatch.
    repeat (case_bool_decide; [subst; tauto|]). done.
Qed.

(** X16.  When an argument the tool reads with a subscript is missing, the
    result is an error payload and nothing is asked of the calendar that would
    change it; for every tool but [book_appointment], whose catalogue lookup
    comes in between, the error names the first missing argument and no
    service is called at all. *)
Theorem missing_argument_error (tool_name key : string)
  (items : list (string * json)) (st : Backend Ext) :
  In key (required_arguments tool_name) ->
  assoc key items = None ->
  (exists e,
     (_execute_tool dumps not_subscriptable no_get str_of
        tool_name (JDict items) st).1
     = dumps (JDict [("error"%string, JStr e)]))
  /\ Forall (fun c => changes_calendar c = false)
        (new_calls dumps not_subscriptable no_get str_of
           tool_name (JDict items) st)
  /\ (tool_name <> "book_appointment"%string ->
      find (fun k => bool_decide (assoc k items = None))
        (required_arguments tool_name) = Some key ->
      _execute_tool dumps not_subscriptable no_get str_of
        tool_name (JDict items) st
      = (dumps (JDict [("error"%string, JStr ("'" ++ key ++ "'")%string)]), st)).
Proof.
  unfold required_arguments. intros Hin Hmiss.
  repeat case_bool_decide; subst; simpl in Hin;
    repeat (destruct Hin as [<-|Hin]; [|]); try done.
  all: split; [|split].
  all: try (intros Hother Hfirst; simpl in Hfirst;
            repeat case_bool_decide; simplify_eq).
  all: unfold new_calls, _execute_tool, dispatch; simpl;
    unfold bind, pure, call, ret, getitem, get; simpl;
    rewrite ?Hmiss; simpl.
  all: repeat match goal with
         | Hk : assoc ?k ?l = _ |- context [assoc ?k ?l] =>
             rewrite Hk; simpl
         end.
  all: repeat (next_case; simpl; try simplify_eq).
  all: rewrite <- ?app_assoc, ?drop_app_length, ?app_nil_r;
    rewrite ?drop_ge by done; simpl.
  all: try done; eauto.
  all: repeat constructor.
Qed.

End DispatcherFacts.

Section DispatcherRuns.

Import ToolDispatcher.

Lemma check_availability_capped_witness :
  (_execute_tool demo_dumps demo_dumps demo_dumps demo_dumps
     "check_availability" (JDict [("date"%string, JStr "2026-03-15")])
     (demo_backend demo_salon)
   = (demo_dumps
        (status "available"
           [("slots"%string, JList (take 5 seven_slots));
            ("total_available"%string, JNum 7)]),
      {| services := demo_salon;
         service_calls := [SlotsCall (JStr "2026-03-15") (JNum 60) JNull] |}))
  /\ (length (take 5 seven_slots) <= 5)%nat.
Proof.
  apply (check_availability_capped demo_dumps demo_dumps demo_dumps demo_dumps
           [("date"%string, JStr "2026-03-15")] (JStr "2026-03-15")
           seven_slots demo_salon (demo_backend demo_salon));
    reflexivity.
Defined.

Lemma booking_needs_all_arguments_witness :
  exists items,
    JDict booking_arguments = JDict items
    /\ assoc "service" items = Some (JStr "Balayage")
    /\ assoc "customer_phone" items = Some (JStr "+15551234567")
    /\ summary balayage_booking = "Balayage – Jane Doe"%string.
Proof.
  destruct (booking_needs_all_arguments
              demo_dumps demo_dumps demo_dumps demo_dumps
              "book_appointment" (JDict booking_arguments)
              (demo_backend demo_salon) balayage_booking)
    as (_ & items & Hargs & Hservice & _ & _ & _ & Hphone & Hsummary).
  - vm_compute. right. left. reflexivity.
  - exists items. repeat split; assumption.
Defined.

Lemma booking_duration_resolution_witness :
  exists items svc fallback,
    JDict booking_arguments = JDict items
    /\ svc = Some balayage
    /\ duration_minutes balayage_booking
       = default fallback (assoc "duration_minutes" items)
    /\ assoc "duration_minutes" [("name"%string, JStr "Balayage");
                                 ("duration_minutes"%string, JNum 90)]
       = Some fallback.
Proof.
  destruct (booking_duration_resolution
              demo_dumps demo_dumps demo_dumps demo_dumps
              "book_appointment" (JDict booking_arguments)
              (demo_backend demo_salon) balayage_booking)
    as (items & svc & fallback & Hargs & Hsvc & Hduration & _ & Hyes).
  - vm_compute. right. left. reflexivity.
  - simpl in Hsvc. injection Hsvc as <-.
    destruct (Hyes eq_refl) as (fields & [= <-] & Hfield).
    exists items, (Some balayage), fallback. repeat split; assumption.
Defined.

Lemma dispatch_call_bounds_witness :
  _execute_tool demo_dumps demo_dumps demo_dumps demo_dumps
    "send_email" JNull (demo_backend demo_salon)
  = (demo_dumps (JDict [("error"%string, JStr "Unknown tool: send_email")]),
     demo_backend demo_salon).
Proof.
  apply (dispatch_call_bounds demo_dumps demo_dumps demo_dumps demo_dumps
           "send_email" JNull (demo_backend demo_salon)).
  vm_compute. intuition discriminate.
Defined.

Lemma missing_argument_error_witness :
  _execute_tool demo_dumps demo_dumps demo_dumps demo_dumps
    "reschedule_appointment" (JDict [("event_id"%string, JStr "event123")])
    (demo_backend demo_salon)
  = (demo_dumps (JDict [("error"%string, JStr "'new_date'")]),
     demo_backend demo_salon).
Proof.
  apply (missing_argument_error demo_dumps demo_dumps demo_dumps demo_dumps
           "reschedule_appointment" "new_date"
           [("event_id"%string, JStr "event123")] (demo_backend demo_salon));
    [vm_compute; right; left; reflexivity | reflexivity | discriminate
    | reflexivity].
Defined.

End DispatcherRuns.

(** ** Session store *)

Section SessionFacts.

Import CallOrchestrator.

Context {Ext : Type} `{Collaborators Ext}.

(** A turn of the engine never raises, and its history has at most 42
    entries. *)
Lemma chat_run h text sid (env0 : Env Ext) :
  exists resp hist e',
    LLMAgent.chat h text sid env0
    = ((resp, hist, tool_names (LLMAgent.turn_calls h text sid env0)),
       {| ext := e';
          calls := calls env0 ++ LLMAgent.turn_calls h text sid env0 |})
    /\ (length hist <= 42)%nat.
Proof.
  destruct (chat_log h text sid env0) as (resp & hist & e' & Hrun & Hshape & _).
  exists resp, hist, e'. split; [done|].
  apply turn_log_history in Hshape. pose proof (trim_history_length h). lia.
Qed.

Lemma start_call_run sid phone (st : State Ext) :
  start_call sid phone st
  = let greeting := get_greeting (ext (env st)) in
    let speech := text_to_speech_base64 greeting (ext (env st)) in
    (Returned (match speech.1 with
               | Returned a => a
               | Raised _ => EmptyString
               end),
     {| active_sessions :=
          <[sid := with_history [assistant_message_of greeting]
                     (new_session sid phone (utcnow (ext (env st))))]>
            (active_sessions st);
        env := {| ext := speech.2;
                  calls := calls (env st) ++ [TtsCall greeting speech.1] |} |}).
Proof.
  unfold start_call, bind, gets, store_session, append_history, modify, attempt,
    tts, call_out, ret.
  simpl.
  destruct (text_to_speech_base64 _ _) as [r2 e2]. simpl.
  unfold with_sessions, with_env, logged. simpl.
  by rewrite alter_insert_eq.
Qed.

(** X17.  [start_call] never raises, even when the synthesis of the greeting
    does: it returns the synthesized audio, or the empty string.  Either way
    the store then holds, under the call identifier, a fresh session whose
    history is the greeting alone; a session that was there before is
    replaced.  The only collaborator called is the synthesis, once. *)
Theorem start_call_registers_session (sid : string) (phone : option string)
  (st : State Ext) :
  let greeting := get_greeting (ext (env st)) in
  let speech := text_to_speech_base64 greeting (ext (env st)) in
  let r := start_call sid phone st in
  r.1 = Returned (match speech.1 with
                  | Returned a => a
                  | Raised _ => EmptyString
                  end)
  /\ active_sessions r.2
     = <[sid := with_history [assistant_message_of greeting]
                  (new_session sid phone (utcnow (ext (env st))))]>
         (active_sessions st)
  /\ calls (env r.2) = calls (env st) ++ [TtsCall greeting speech.1]
  /\ ext (env r.2) = speech.2.
Proof.
  cbv zeta. by rewrite start_call_run.
Qed.

(** X18.  [end_call] never raises and calls no collaborator; it removes the
    session of that call and no other, so audio that still arrives for the
    call is ignored; on an identifier without a session it changes nothing.
    Ending a call right after starting it leaves the store as it was before,
    minus that identifier. *)
Theorem end_call_forgets_session (sid : string) (st : State Ext) :
  let r := end_call sid st in
  r.1 = Returned tt
  /\ env r.2 = env st
  /\ active_sessions r.2 !! sid = None
  /\ (forall other, other <> sid ->
        active_sessions r.2 !! other = active_sessions st !! other)
  /\ (active_sessions st !! sid = None -> r.2 = st)
  /\ (forall audio,
        process_customer_audio sid audio r.2
        = (Returned (EmptyString, EmptyString), r.2))
  /\ (forall phone,
        active_sessions (end_call sid (start_call sid phone st).2).2
        = delete sid (active_sessions st)).
Proof.
  cbv zeta. unfold end_call, modify. simpl.
  split; [done|]. split; [done|].
  split; [apply lookup_delete_eq|].
  split; [by intros other Hother; apply lookup_delete_ne|].
  split.
  { intros Hnone. destruct st as [m e]. unfold with_sessions. simpl in *.
    by rewrite delete_id. }
  split.
  - intros audio.
    unfold process_customer_audio, bind, get_session, gets, ret. simpl.
    by rewrite lookup_delete_eq.
  - intros phone.
    rewrite start_call_run. simpl. apply delete_insert_eq.
Qed.

Ltac run_chat :=
  match goal with
  | |- context [LLMAgent.chat ?h ?t ?s ?e] =>
      let resp := fresh "resp" in
      let hist := fresh "hist" in
      let e' := fresh "e'" in
      let Hrun := fresh "Hrun" in
      let Hlen := fresh "Hlen" in
      destruct (chat_run h t s e) as (resp & hist & e' & Hrun & Hlen);
      rewrite Hrun; simpl
  end.

(** What one run of the audio pipeline does to the store: nothing, or it
    replaces the history of the session under [sid]. *)
Lemma process_customer_audio_store sid audio (st : State Ext) :
  active_sessions (process_customer_audio sid audio st).2 = active_sessions st
  \/ exists hist,
       (length hist <= 42)%nat
       /\ active_sessions (process_customer_audio sid audio st).2
          = alter (with_history hist) sid (active_sessions st).
Proof.
  unfold process_customer_audio, bind, get_session, gets, ret, attempt, stt, tts,
    call_out, converse, set_history, modify.
  simpl. destruct (active_sessions st !! sid) as [session|]; [|by left].
  destruct (speech_to_text audio _) as [[e|text] e1]; simpl.
  - destruct (text_to_speech_base64 _ _) as [[?|?] e2]; by left.
  - destruct (is_blank text); [by left|]. simpl.
    run_chat. destruct (text_to_speech_base64 _ _) as [[?|?] e2]; simpl.
    all: right; by exists hist.
Qed.

(** What one run of the text pipeline does to the store. *)
Lemma process_customer_text_store sid text (st : State Ext) :
  exists hist,
    (length hist <= 42)%nat
    /\ active_sessions (process_customer_text sid text st).2
       = match active_sessions st !! sid with
         | Some _ => alter (with_history hist) sid (active_sessions st)
         | None =>
             <[sid := with_history hist
                        (new_session sid None (utcnow (ext (env st))))]>
               (active_sessions st)
         end.
Proof.
  unfold process_customer_text, bind, get_session, gets, ret, store_session,
    set_history, modify, converse, attempt, tts, call_out.
  simpl. destruct (active_sessions st !! sid) as [session|]; simpl.
  all: run_chat; destruct (text_to_speech_base64 _ _) as [[?|?] e2]; simpl.
  all: exists hist; split; [done|]; by rewrite ?alter_insert_eq.
Qed.

(** X19.  The audio pipeline neither creates nor removes a session: it
    leaves the sessions of all other calls as they are, and of the session of
    its own call it changes at most the conversation history. *)
Theorem audio_touches_one_history (sid : string) (audio : list Byte.byte)
  (st : State Ext) :
  let r := process_customer_audio sid audio st in
  (forall other, other <> sid ->
     active_sessions r.2 !! other = active_sessions st !! other)
  /\ with_history [] <$> active_sessions r.2 !! sid
     = with_history [] <$> active_sessions st !! sid.
Proof.
  cbv zeta.
  destruct (process_customer_audio_store sid audio st)
    as [->|(hist & _ & ->)]; [done|].
  split.
  - intros other Hother. by apply lookup_alter_ne.
  - rewrite lookup_alter_eq. by destruct (active_sessions st !! sid).
Qed.



(** An invariant of the sessions that a fresh session satisfies and that a
    change of history to at most 42 entries keeps is kept by every operation
    of the orchestrator. *)
Lemma store_invariant (P : string -> CallSession -> Prop) :
  (forall sid phone now hist,
     (length hist <= 42)%nat ->
     P sid (with_history hist (new_session sid phone now))) ->
  (forall k s hist, (length hist <= 42)%nat -> P k s -> P k (with_history hist s)) ->
  forall (st : State Ext) sid,
    map_Forall P (active_sessions st) ->
    (forall phone, map_Forall P (active_sessions (start_call sid phone st).2))
    /\ (forall audio,
          map_Forall P (active_sessions (process_customer_audio sid audio st).2))
    /\ (forall text,
          map_Forall P (active_sessions (process_customer_text sid text st).2))
    /\ map_Forall P (active_sessions (end_call sid st).2).
Proof.
  intros Hfresh Hhist st sid Hst.
  assert (Halter : forall hist, (length hist <= 42)%nat ->
            map_Forall P (alter (with_history hist) sid (active_sessions st))).
  { intros hist Hlen k s [Hs|Hs]%lookup_alter_Some.
    - destruct Hs as (-> & s0 & Hs0 & ->). apply Hhist; [done|]. by apply Hst.
    - destruct Hs as [_ Hs]. by apply Hst. }
  split; [|split; [|split]].
  - intros phone. rewrite start_call_run. simpl.
    apply map_Forall_insert_2; [|done]. apply Hfresh. simpl. lia.
  - intros audio.
    destruct (process_customer_audio_store sid audio st)
      as [->|(hist & Hlen & ->)]; [done|by apply Halter].
  - intros text.
    destruct (process_customer_text_store sid text st) as (hist & Hlen & ->).
    destruct (active_sessions st !! sid); [by apply Halter|].
    apply map_Forall_insert_2; [|done]. by apply Hfresh.
  - unfold end_call, modify. simpl. by apply map_Forall_delete.
Qed.

(** X22.  No operation of the orchestrator leaves a session with more than 42
    history entries in a store in which no session had more: not the start of
    a call, an audio turn, a text turn or the end of a call. *)
Theorem history_stays_bounded (st : State Ext) (sid : string) :
  map_Forall (fun _ s => (length (conversation_history s) <= 42)%nat)
    (active_sessions st) ->
  (forall phone,
     map_Forall (fun _ s => (length (conversation_history s) <= 42)%nat)
       (active_sessions (start_call sid phone st).2))
  /\ (forall audio,
        map_Forall (fun _ s => (length (conversation_history s) <= 42)%nat)
          (active_sessions (process_customer_audio sid audio st).2))
  /\ (forall text,
        map_Forall (fun _ s => (length (conversation_history s) <= 42)%nat)
          (active_sessions (process_customer_text sid text st).2))
  /\ map_Forall (fun _ s => (length (conversation_history s) <= 42)%nat)
       (active_sessions (end_call sid st).2).
Proof.
  apply (store_invariant
           (fun _ s => (length (conversation_history s) <= 42)%nat)); by simpl.
Qed.

(** X23.  Every session is stored under its own call identifier: no
    operation of the orchestrator breaks this. *)
Theorem sessions_keyed_by_call_sid (st : State Ext) (sid : string) :
  map_Forall (fun k s => call_sid s = k) (active_sessions st) ->
  (forall phone,
     map_Forall (fun k s => call_sid s = k)
       (active_sessions (start_call sid phone st).2))
  /\ (forall audio,
        map_Forall (fun k s => call_sid s = k)
          (active_sessions (process_customer_audio sid audio st).2))
  /\ (forall text,
        map_Forall (fun k s => call_sid s = k)
          (active_sessions (process_customer_text sid text st).2))
  /\ map_Forall (fun k s => call_sid s = k)
       (active_sessions (end_call sid st).2).
Proof.
  apply (store_invariant (fun k s => call_sid s = k)); by simpl.
Qed.

End SessionFacts.

(** Concrete runs of the session store. *)

Section SessionRuns.

Import CallOrchestrator.

(** X18 on an orchestrator that holds only call CA1: ending CA7 changes
    nothing. *)
Lemma end_call_forgets_session_witness :
  (end_call "CA7" (one_call haircut_question)).2 = one_call haircut_question.
Proof.
  apply (end_call_forgets_session "CA7" (one_call haircut_question)).
  reflexivity.
Defined.

(** X19: a turn of call CA1 leaves call CA2 without a session. *)
Lemma audio_touches_one_history_witness :
  active_sessions
    (process_customer_audio "CA1" quiet_frame (one_call haircut_question)).2
    !! "CA2"%string
  = active_sessions (one_call haircut_question) !! "CA2"%string.
Proof.
  apply (audio_touches_one_history "CA1" quiet_frame (one_call haircut_question)).
  discriminate.
Defined.



Lemma history_stays_bounded_witness :
  map_Forall (fun _ s => (length (conversation_history s) <= 42)%nat)
    (active_sessions
       (process_customer_text "CA1" "How much is a haircut?"
          (one_call haircut_question)).2).
Proof.
  apply (history_stays_bounded (one_call haircut_question) "CA1").
  apply map_Forall_singleton. simpl. lia.
Defined.

Lemma sessions_keyed_by_call_sid_witness :
  map_Forall (fun k s => call_sid s = k)
    (active_sessions
       (start_call "CA2" (Some "+15557654321"%string)
          (one_call haircut_question)).2).
Proof.
  apply (sessions_keyed_by_call_sid (one_call haircut_question) "CA2").
  apply map_Forall_singleton. reflexivity.
Defined.

End SessionRuns.

(** ** Outgoing audio *)

Section SendAudioFacts.

Import Voice.

Variable b64decode : string -> Exc (list Byte.byte).
Variable b64encode : list Byte.byte -> string.

Lemma chunks_take (audio_bytes : list Byte.byte) (c m : nat) :
  concat (map (fun i => slice audio_bytes i (i + c))
              (map (fun k => k * c)%nat (seq 0 m)))
  = take (m * c) audio_bytes.
Proof.
  induction m as [|m IH]; [done|].
  rewrite seq_S, !map_app, concat_app, IH. simpl. rewrite app_nil_r.
  unfold slice. replace (m * c + c - m * c)%nat with c by lia.
  rewrite take_take_drop. f_equal. lia.
Qed.

Lemma chunks_of_concat audio_bytes : concat (chunks_of audio_bytes) = audio_bytes.
Proof.
  unfold chunks_of, range_step. rewrite chunks_take.
  apply take_ge. unfold CHUNK_SIZE.
  pose proof (Nat.div_mod (length audio_bytes + Z.to_nat 8000 - 1)
                (Z.to_nat 8000)) as Hdiv.
  pose proof (Nat.mod_upper_bound (length audio_bytes + Z.to_nat 8000 - 1)
                (Z.to_nat 8000)) as Hmod.
  lia.
Qed.

Lemma chunks_of_lookup audio_bytes i chunk :
  chunks_of audio_bytes !! i = Some chunk ->
  (0 < length chunk <= CHUNK_SIZE)%nat
  /\ ((S i < length (chunks_of audio_bytes))%nat -> length chunk = CHUNK_SIZE).
Proof.
  unfold chunks_of, range_step, CHUNK_SIZE.
  set (c := Z.to_nat 8000).
  assert (Hc : (0 < c)%nat) by (subst c; lia). clearbody c.
  rewrite !length_map, length_seq, !list_lookup_fmap.
  pose proof (Nat.div_mod (length audio_bytes + c - 1) c) as Hdiv.
  pose proof (Nat.mod_upper_bound (length audio_bytes + c - 1) c) as Hmod.
  set (m := ((length audio_bytes + c - 1) / c)%nat) in *.
  destruct (seq 0 m !! i) as [k|] eqn:Hk; [|done].
  apply lookup_seq in Hk as [-> Hi]. simpl. intros [= <-].
  unfold slice. rewrite length_take, length_drop.
  replace (i * c + c - i * c)%nat with c by lia.
  assert (Hnext : (i * c + c <= c * m)%nat) by nia.
  split; [lia|]. intros Hlast.
  assert (Hafter : (i * c + c + c <= c * m)%nat) by nia.
  lia.
Qed.

(** X24.  [_send_audio] sends nothing when the audio is no base64.
    Otherwise it sends the audio in order, cut into chunks of 8000 bytes with
    a shorter, non-empty last one when the length is no multiple of 8000,
    and then exactly one mark, named [response_end]; audio of no bytes gives
    the mark alone. *)
Theorem send_audio_chunks (stream_sid audio_b64 : string) :
  match b64decode audio_b64 with
  | Raised e => _send_audio b64decode b64encode stream_sid audio_b64 = Raised e
  | Returned audio_bytes =>
      exists chunks,
        _send_audio b64decode b64encode stream_sid audio_b64
        = Returned (map (fun chunk => MediaOut stream_sid (b64encode chunk)) chunks
                    ++ [MarkOut stream_sid "response_end"])
        /\ concat chunks = audio_bytes
        /\ Forall (fun chunk => (0 < length chunk <= CHUNK_SIZE)%nat) chunks
        /\ (forall i chunk,
              chunks !! i = Some chunk ->
              (S i < length chunks)%nat ->
              length chunk = CHUNK_SIZE)
        /\ (audio_bytes = [] -> chunks = [])
  end.
Proof.
  unfold _send_audio. destruct (b64decode audio_b64) as [e|audio_bytes]; [done|].
  exists (chunks_of audio_bytes).
  split; [done|]. split; [apply chunks_of_concat|]. split; [|split].
  - apply Forall_lookup. intros i chunk Hi.
    by destruct (chunks_of_lookup _ _ _ Hi).
  - intros i chunk Hi. by destruct (chunks_of_lookup _ _ _ Hi).
  - by intros ->.
Qed.

End SendAudioFacts.

(** ** Segmenter invariants *)

Section SegmenterInvariants.

Import Voice.

Variable rms_energy : list Byte.byte -> Z.

Lemma listen_emits chunk s s1 u :
  listen rms_energy chunk s = (s1, Some u) ->
  s1 = handed_over
  /\ u = audio_buffer s ++ chunk
  /\ (CHUNK_THRESHOLD < length u)%nat
  /\ rms_energy chunk <= SPEECH_RMS_THRESHOLD
  /\ is_speaking s = true
  /\ (SILENCE_THRESHOLD <= S (silence_count s))%nat.
Proof.
  unfold listen.
  case_bool_decide; [simpl; by repeat case_bool_decide|].
  destruct (is_speaking s); [|done]. simpl.
  by repeat case_bool_decide; simpl; intros [= <- <-].
Qed.


(** X25.  The segmenter hands over an utterance only at a frame that is not
    above the speech threshold, while it is listening and speech has been
    heard, when that frame is at least the thirtieth counted one; the
    utterance is the buffer with that frame and is longer than 3200 bytes;
    the locals are then reset and suppressed. *)
Theorem emission_conditions (payload : option (list Byte.byte))
  (s s1 : segmenter) (u : list Byte.byte) :
  segment rms_energy payload s = (s1, Some u) ->
  exists chunk,
    payload = Some chunk
    /\ is_processing s = false
    /\ is_speaking s = true
    /\ rms_energy chunk <= SPEECH_RMS_THRESHOLD
    /\ (SILENCE_THRESHOLD <= S (silence_count s))%nat
    /\ u = audio_buffer s ++ chunk
    /\ (CHUNK_THRESHOLD < length u)%nat
    /\ s1 = handed_over.
Proof.
  unfold segment. destruct (is_processing s) eqn:Hs; [done|].
  destruct payload as [chunk|]; [|done].
  intros (-> & -> & Hlen & Hrms & Hspeak & Hsil)%listen_emits.
  by exists chunk.
Qed.





(** X28.  Before any speech is heard, frames that are not above the speech
    threshold are buffered without being counted, however many arrive: no
    utterance is handed over, the silence counter stays as it was, and the
    buffer grows by every frame. *)
Theorem leading_silence_buffered (frames : list (list Byte.byte))
  (s : segmenter) :
  is_processing s = false ->
  is_speaking s = false ->
  Forall (fun f => rms_energy f <= SPEECH_RMS_THRESHOLD) frames ->
  segment_all rms_energy (map Some frames) s
  = ({| audio_buffer := audio_buffer s ++ concat frames;
        silence_count := silence_count s;
        is_speaking := false;
        is_processing := false |}, []).
Proof.
  intros Hs Hquiet Hall. revert s Hs Hquiet.
  induction Hall as [|f rest Hf _ IH]; intros s Hs Hquiet; simpl.
  { rewrite app_nil_r. destruct s. simpl in *. by subst. }
  unfold segment, listen. rewrite Hs, Hquiet.
  rewrite bool_decide_eq_false_2 by lia. simpl.
  rewrite IH by done. simpl. by rewrite <- app_assoc.
Qed.

End SegmenterInvariants.

(** ** The stream as a whole *)

Section StreamFacts.

Import CallOrchestrator Voice.

Variable rms_energy : list Byte.byte -> Z.

Context {Ext : Type} `{Collaborators Ext}.

Lemma serve_stop_cut before after (c : connection) (st : State Ext) :
  serve rms_energy (before ++ Stop :: after) c st
  = serve rms_energy (before ++ [Stop]) c st.
Proof.
  revert c st. induction before as [|ev rest IH]; intros c st; [done|].
  destruct ev; simpl; try done; unfold bind.
  all: match goal with
       | |- context [match ?m with _ => _ end] =>
           destruct m as [[e|c1] st1]; [done|apply IH]
       end.
Qed.

Lemma handle_stop_ends (c c' : connection) (st st' : State Ext) sid :
  handle_stop c st = (Returned c', st') ->
  Voice.call_sid c' = Some sid ->
  nonempty sid = true ->
  active_sessions st' !! sid = None.
Proof.
  unfold handle_stop.
  destruct (Voice.call_sid c) as [sid0|] eqn:Hsid0.
  - destruct (nonempty sid0) eqn:Hname.
    + unfold bind, end_call, modify, ret. simpl.
      intros [= <- <-] Hsid _. simpl.
      rewrite Hsid0 in Hsid. injection Hsid as ->. apply lookup_delete_eq.
    + intros [= <- <-] Hsid Hne. congruence.
  - intros [= <- <-] Hsid. congruence.
Qed.

Lemma serve_stop_ends before (c c' : connection) (st st' : State Ext) sid :
  serve rms_energy (before ++ [Stop]) c st = (Returned c', st') ->
  Voice.call_sid c' = Some sid ->
  nonempty sid = true ->
  active_sessions st' !! sid = None.
Proof.
  revert c st. induction before as [|ev rest IH]; intros c st.
  { apply handle_stop_ends. }
  destruct ev; simpl; try apply handle_stop_ends; unfold bind.
  all: match goal with
       | |- context [match ?m with _ => _ end] =>
           destruct m as [[e|c1] st1]; [done|apply IH]
       end.
Qed.

(** X29.  The loop ends at the first [stop] message: whatever follows it in
    the stream is never handled.  When the loop ends this way and a call
    identifier is known, the store no longer holds a session for it. *)
Theorem stream_ends_at_stop (before after : list ws_event) (c : connection)
  (st : State Ext) :
  serve rms_energy (before ++ Stop :: after) c st
  = serve rms_energy (before ++ [Stop]) c st
  /\ forall c' st' sid,
       serve rms_energy (before ++ Stop :: after) c st = (Returned c', st') ->
       Voice.call_sid c' = Some sid ->
       nonempty sid = true ->
       active_sessions st' !! sid = None.
Proof.
  split; [apply serve_stop_cut|].
  intros c' st' sid. rewrite serve_stop_cut. apply serve_stop_ends.
Qed.

(** X30.  When the synthesis of the greeting raises, or the [start] message
    names no stream, the [start] branch sends nothing and leaves the
    segmentation locals as they were, so the handler listens at once; the
    call is registered all the same, with the greeting in its history. *)
Theorem greeting_without_audio (stream : option string) (sid from : string)
  (c : connection) (st : State Ext) :
  (exists e,
     (text_to_speech_base64 (get_greeting (ext (env st))) (ext (env st))).1
     = Raised e)
  \/ stream = None ->
  handle_start stream sid from c st
  = (Returned {| Voice.call_sid := Some sid; caller := Some from;
                 stream_sid := stream; greeting_sent := greeting_sent c;
                 seg := seg c |},
     (start_call sid (Some from) st).2)
  /\ conversation_history
       <$> active_sessions (handle_start stream sid from c st).2 !! sid
     = Some [assistant_message_of (get_greeting (ext (env st)))]
  /\ Forall (fun entry => match entry with
                         | SendAudio _ _ _ => False
                         | _ => True
                         end)
       (drop (length (calls (env st)))
             (calls (env (handle_start stream sid from c st).2))).
Proof.
  intros Hcase.
  assert (Hrun : handle_start stream sid from c st
                 = (Returned {| Voice.call_sid := Some sid; caller := Some from;
                                stream_sid := stream;
                                greeting_sent := greeting_sent c;
                                seg := seg c |},
                    (start_call sid (Some from) st).2)).
  { unfold handle_start, bind. rewrite start_call_run. simpl.
    destruct Hcase as [[e He]| ->]; [|done].
    rewrite He. by destruct stream. }
  rewrite Hrun. split; [done|]. rewrite start_call_run. simpl.
  split; [by rewrite lookup_insert_eq|].
  rewrite drop_app_length. by repeat constructor.
Qed.

End StreamFacts.

(** Concrete runs of the stream handler, with the G.711 energy estimate. *)

Section StreamRuns.

Import CallOrchestrator Voice.

(** X25 at the thirtieth quiet frame, with 3200 bytes of speech buffered. *)
Lemma emission_conditions_witness :
  exists chunk,
    Some quiet_frame = Some chunk
    /\ ulaw_rms chunk <= SPEECH_RMS_THRESHOLD
    /\ (CHUNK_THRESHOLD < length (replicate 3200 Byte.x00 ++ quiet_frame))%nat.
Proof.
  destruct (emission_conditions ulaw_rms (Some quiet_frame)
              (hearing (replicate 3200 Byte.x00) 29) handed_over
              (replicate 3200 Byte.x00 ++ quiet_frame))
    as (chunk & Hpayload & _ & _ & Hrms & _ & _ & Hlen & _); [by vm_compute|].
  exists chunk. exact (conj Hpayload (conj Hrms Hlen)).
Defined.



(** X28: forty quiet frames before any speech, 6400 bytes, are buffered
    without an utterance. *)
Lemma leading_silence_buffered_witness :
  segment_all ulaw_rms (map Some (replicate 40 quiet_frame)) listening
  = ({| audio_buffer := [] ++ concat (replicate 40 quiet_frame);
        silence_count := 0;
        is_speaking := false;
        is_processing := false |}, []).
Proof.
  apply (leading_silence_buffered ulaw_rms (replicate 40 quiet_frame) listening);
    [reflexivity|reflexivity|].
  apply (bool_decide_unpack _). by vm_compute.
Defined.

(** X29: after the call of [one_utterance] a [stop] arrives, followed by one
    more frame; the session of the call is gone. *)
Lemma stream_ends_at_stop_witness :
  active_sessions
    (serve ulaw_rms (one_utterance ++ Stop :: [Media (Some loud_frame)])
       initial (no_call haircut_question)).2 !! "CA1"%string
  = None.
Proof.
  apply (proj2 (stream_ends_at_stop ulaw_rms one_utterance
                  [Media (Some loud_frame)] initial (no_call haircut_question))
           {| Voice.call_sid := Some "CA1"%string;
              caller := Some "+15551234567"%string;
              stream_sid := Some "MZ1"%string;
              greeting_sent := true;
              seg := handed_over |}).
  - by vm_compute.
  - reflexivity.
  - reflexivity.
Defined.

(** X30 with the synthesis down: the handler listens at once. *)
Lemma greeting_without_audio_witness :
  (handle_start (Some "MZ1"%string) "CA1" "+15551234567" initial
     (no_call voice_down)).1
  = Returned {| Voice.call_sid := Some "CA1"%string;
                caller := Some "+15551234567"%string;
                stream_sid := Some "MZ1"%string;
                greeting_sent := false;
                seg := listening |}.
Proof.
  destruct (greeting_without_audio (Some "MZ1"%string) "CA1" "+15551234567"
              initial (no_call voice_down)) as [Hrun _].
  - left. by eexists.
  - by rewrite Hrun.
Defined.

End StreamRuns.
